(** * TitleGenerator: the blog-title cascade of [blog/utils.py] and the
      request validation of [blog/views.py], embedded and verified.

    Python [str] values are sequences of Unicode code points, so that [len]
    counts what the source counts.  The whitespace class of [str.strip],
    [str.split] and the regular expression [\s] is a small fixed set and is
    written out.  The alphanumeric class behind [\w], the case conversions
    and the decimal parser behind [int] are tables of the Python runtime:
    they are the fields of the class [Unicode], every definition of the
    program is parametric in them, and [Ascii7] implements them on the
    ASCII range for the statements that evaluate the program.

    A confidence is kept in hundredths ([90] is the source's [0.9]); the
    source computes it in binary floating point, whose error on these
    subtractions is below [1e-15]. *)

From Stdlib Require Import String Ascii DecimalString DecimalNat.
From Stdlib Require Import List NArith ZArith Bool Lia Sorted.
Import ListNotations.

Set Implicit Arguments.

(** ** Strings *)

Definition char := N.
Bind Scope N_scope with char.
Definition pystr := list char.

(** [len(l)] *)
Definition len (A : Type) (l : list A) : Z := Z.of_nat (length l).

(** An ASCII literal of the source, as code points. *)
Definition lit (s : string) : pystr := map N_of_ascii (list_ascii_of_string s).
Arguments lit s%_string.

Fixpoint str_eqb (a b : pystr) : bool :=
  match a, b with
  | [], [] => true
  | x :: a', y :: b' => N.eqb x y && str_eqb a' b'
  | _, _ => false
  end.

(** [x in l] for a list or set of strings. *)
Definition str_in (x : pystr) (l : list pystr) : bool := existsb (str_eqb x) l.

(** [not l] for a string or a list. *)
Definition is_empty (A : Type) (l : list A) : bool :=
  match l with [] => true | _ => false end.

Open Scope N_scope.

(** [str.isspace] on one code point; also the class [\s] and the
    separators of [str.split()] and [str.strip()]. *)
Definition isspace (c : char) : bool :=
  ((9 <=? c) && (c <=? 13)) || ((28 <=? c) && (c <=? 32))
  || (c =? 133) || (c =? 160) || (c =? 5760)
  || ((8192 <=? c) && (c <=? 8202))
  || (c =? 8232) || (c =? 8233) || (c =? 8239) || (c =? 8287) || (c =? 12288).

Definition SPACE : char := 32.
Definition DOT : char := 46.
Definition APOSTROPHE : char := 39.
Definition DQUOTE : char := 34.
Definition BACKTICK : char := 96.
(** U+2018, U+2019, U+201C, U+201D: the curly quotes. *)
Definition LSQUO : char := 8216.
Definition RSQUO : char := 8217.
Definition LDQUO : char := 8220.
Definition RDQUO : char := 8221.

Close Scope N_scope.

(** [s.replace(a, b)] for one-character [a] and [b]. *)
Definition replace_char (a b : char) (s : pystr) : pystr :=
  map (fun c => if N.eqb c a then b else c) s.

(** [s.replace(a, '')] for a one-character [a]. *)
Definition remove_char (a : char) (s : pystr) : pystr :=
  filter (fun c => negb (N.eqb c a)) s.

Fixpoint lstrip_by (p : char -> bool) (s : pystr) : pystr :=
  match s with
  | [] => []
  | c :: r => if p c then lstrip_by p r else s
  end.

Fixpoint rstrip_by (p : char -> bool) (s : pystr) : pystr :=
  match s with
  | [] => []
  | c :: r =>
      match rstrip_by p r with
      | [] => if p c then [] else [c]
      | r' => c :: r'
      end
  end.

(** [s.strip()] *)
Definition strip (s : pystr) : pystr := rstrip_by isspace (lstrip_by isspace s).

(** [s.rstrip('.')] *)
Definition rstrip_dots (s : pystr) : pystr := rstrip_by (N.eqb DOT) s.

(** [re.sub(r'\s+', ' ', s)]: every maximal run of whitespace becomes one
    space.  [in_run] says that the previous character was whitespace. *)
Fixpoint collapse_from (in_run : bool) (s : pystr) : pystr :=
  match s with
  | [] => []
  | c :: r =>
      if isspace c
      then (if in_run then collapse_from true r else SPACE :: collapse_from true r)
      else c :: collapse_from false r
  end.

Definition collapse_ws (s : pystr) : pystr := collapse_from false s.

(** Splitting at every character of a class: the pieces between the
    separators, empty ones included, so never an empty list. *)
Fixpoint split_by (p : char -> bool) (s : pystr) : list pystr :=
  match s with
  | [] => [[]]
  | c :: r =>
      if p c then [] :: split_by p r
      else match split_by p r with
           | w :: ws => (c :: w) :: ws
           | [] => [[c]]
           end
  end.

(** [s.split('.')] *)
Definition split_dot (s : pystr) : list pystr := split_by (N.eqb DOT) s.

(** [s.split()]: the maximal runs of non-whitespace. *)
Definition split_ws (s : pystr) : list pystr :=
  filter (fun w => negb (is_empty w)) (split_by isspace s).

(** [sep.join(l)] *)
Fixpoint join (sep : pystr) (l : list pystr) : pystr :=
  match l with
  | [] => []
  | [w] => w
  | w :: r => w ++ sep ++ join sep r
  end.

(** [str(n)] for a non-negative integer. *)
Definition str_of_nat (n : nat) : pystr :=
  lit (NilEmpty.string_of_uint (Nat.to_uint n)).

(** [l[:n]] for an integer [n]: a negative bound counts from the end. *)
Definition slice_to (A : Type) (n : Z) (l : list A) : list A :=
  if (n <? 0)%Z then firstn (length l - Z.to_nat (- n)) l
  else firstn (Z.to_nat n) l.

(** ** Values, exceptions *)

(** What a caller or a JSON body can hand over.  A float is finite and kept
    as a fraction; [VOther] stands for a list or a dict, with its
    truthiness. *)
Inductive value :=
| VNone
| VBool (b : bool)
| VInt (z : Z)
| VFloat (num : Z) (den : positive)
| VStr (s : pystr)
| VOther (nonempty : bool).

(** [bool(v)] *)
Definition truthy (v : value) : bool :=
  match v with
  | VNone => false
  | VBool b => b
  | VInt z => negb (z =? 0)%Z
  | VFloat n _ => negb (n =? 0)%Z
  | VStr s => negb (is_empty s)
  | VOther b => b
  end.

Inductive exn := AttributeError | TypeError | ValueError.

Inductive result (A : Type) :=
| Ok (a : A)
| Raise (e : exn).
Arguments Raise {A} e.

Definition bind (A B : Type) (m : result A) (k : A -> result B) : result B :=
  match m with
  | Ok a => k a
  | Raise e => Raise e
  end.

Notation "x <- m ;; k" := (bind m (fun x => k))
  (at level 61, m at next level, right associativity).

(** ** The runtime's Unicode tables *)

Class Unicode := {
  (** [str.isalnum] on one code point *)
  str_isalnum : char -> bool;
  (** [str.upper], [str.lower], [str.capitalize], [str.title] *)
  str_upper : pystr -> pystr;
  str_lower : pystr -> pystr;
  str_capitalize : pystr -> pystr;
  str_title : pystr -> pystr;
  (** [int(s)] for a string: [None] is [ValueError] *)
  int_of_str : pystr -> option Z
}.

(** ** [TitleGenerator.clean_content] *)

Section Cleaner.
Context {U : Unicode}.

(** The class [[\w\s.,!?-]]. *)
Definition keep_char (c : char) : bool :=
  (str_isalnum c || N.eqb c 95) || isspace c
  || N.eqb c 46 || N.eqb c 44 || N.eqb c 33 || N.eqb c 63 || N.eqb c 45.

(** The loop over the sentences, with its [break]. *)
Fixpoint reassemble (content : pystr) (sentences : list pystr) : pystr :=
  match sentences with
  | [] => content
  | sentence :: rest =>
      if (800 <? len (content ++ sentence))%Z then content
      else reassemble (content ++ sentence ++ lit ".") rest
  end.

(** The body of [clean_content] for a non-empty string. *)
Definition clean_text (content : pystr) : pystr :=
  let content := replace_char LSQUO APOSTROPHE (replace_char RSQUO APOSTROPHE content) in
  let content := replace_char RDQUO DQUOTE (replace_char LDQUO DQUOTE content) in
  let content := collapse_ws (strip content) in
  let content := filter keep_char content in
  if (800 <? len content)%Z then
    let sentences := split_dot content in
    let content := reassemble [] sentences in
    if is_empty content then firstn 800 content ++ lit "..." else content
  else content.

Definition clean_content (content : value) : result pystr :=
  if negb (truthy content) then Ok []
  else match content with
       | VStr s => Ok (clean_text s)
       | _ => Raise AttributeError
       end.

(** The string the hard truncation is meant to cut: cleaned, not yet split. *)
Definition cleaned_unsplit (content : pystr) : pystr :=
  filter keep_char
    (collapse_ws (strip
       (replace_char RDQUO DQUOTE (replace_char LDQUO DQUOTE
          (replace_char LSQUO APOSTROPHE (replace_char RSQUO APOSTROPHE content)))))).

End Cleaner.

(** ** [TitleGenerator._clean_title] *)

Section Formatter.
Context {U : Unicode}.

Definition always_caps : list pystr :=
  [lit "AI"; lit "API"; lit "ML"; lit "NLP"; lit "IoT"; lit "SaaS"; lit "CEO";
   lit "CTO"; lit "IT"; lit "UI"; lit "UX"; lit "SEO"; lit "ROI"].

Definition articles_prepositions : list pystr :=
  [lit "a"; lit "an"; lit "the"; lit "and"; lit "or"; lit "but"; lit "in";
   lit "on"; lit "at"; lit "to"; lit "for"; lit "of"; lit "with"; lit "by"].

(** The body of the loop over [enumerate(words)]. *)
Definition case_word (i : nat) (word : pystr) : pystr :=
  let word_upper := str_upper word in
  let word_lower := str_lower word in
  if str_in word_upper always_caps then word_upper
  else if Nat.eqb i 0 then str_capitalize word
  else if str_in word_lower articles_prepositions then word_lower
  else if (3 <? len word)%Z then str_capitalize word
  else word_lower.

Fixpoint case_words (i : nat) (words : list pystr) : list pystr :=
  match words with
  | [] => []
  | word :: rest => case_word i word :: case_words (S i) rest
  end.

Definition _clean_title (title : pystr) : pystr :=
  if is_empty title then []
  else
    let title :=
      replace_char BACKTICK APOSTROPHE
        (replace_char APOSTROPHE APOSTROPHE (remove_char DQUOTE title)) in
    let title := collapse_ws (strip title) in
    let title := rstrip_dots title in
    let words := split_ws title in
    if is_empty words then []
    else join (lit " ") (case_words 0 words).

End Formatter.

(** ** Candidates *)

Inductive method_t := ai | rule_based | smart_fallback | basic_fallback.

(** The dict with the keys ['title'], ['confidence'], ['method']; the
    confidence in hundredths. *)
Record candidate := {
  title : pystr;
  confidence : Z;
  method : method_t
}.

(** [[t['title'] for t in titles]] *)
Definition titles_of (titles : list candidate) : list pystr := map title titles.

(** ** The fallback tiers *)

Section Fallbacks.
Context {U : Unicode}.

(** The windows [words[i:i+2]] for [i] in [range(len(words) - 1)], joined,
    title-cased and kept when longer than 6. *)
Fixpoint key_phrases (words : list pystr) : list pystr :=
  match words with
  | w1 :: ((w2 :: _) as rest) =>
      let phrase := str_title (join (lit " ") [w1; w2]) in
      if (6 <? len phrase)%Z then phrase :: key_phrases rest
      else key_phrases rest
  | _ => []
  end.

(** A template is the text before and after its one [{}]. *)
Definition templates : list (pystr * pystr) :=
  [ (lit "Understanding ", lit "");
    (lit "A Complete Guide to ", lit "");
    (lit "Everything You Need to Know About ", lit "");
    (lit "The Future of ", lit "");
    (lit "How to Master ", lit "");
    (lit "The Ultimate ", lit " Guide");
    (lit "Exploring ", lit "");
    (lit "The Power of ", lit "");
    (lit "Why ", lit " Matters");
    (lit "Getting Started with ", lit "") ].

(** [template.format(arg)] *)
Definition format (template : pystr * pystr) (arg : pystr) : pystr :=
  fst template ++ arg ++ snd template.

(** One iteration of the loop of [_rule_based_titles]; the state is
    [titles] and [used_phrases]. *)
Definition rule_step (phrases : list pystr)
    (st : list candidate * list pystr) (i : nat) : list candidate * list pystr :=
  let '(titles, used_phrases) := st in
  match nth_error phrases i with
  | Some phrase =>
      if negb (str_in phrase used_phrases) then
        let template := nth (i mod length templates) templates ([], []) in
        (titles ++ [ {| title := format template phrase;
                        confidence := 70 - Z.of_nat i * 10;
                        method := rule_based |} ],
         phrase :: used_phrases)
      else st
  | None => st
  end.

Definition _rule_based_titles (content : pystr) (num_titles : Z) : list candidate :=
  let words := split_ws content in
  let phrases := key_phrases words in
  fst (fold_left (rule_step phrases)
         (seq 0 (Z.to_nat (Z.min num_titles (len phrases)))) ([], [])).

Definition smart_stopwords : list pystr :=
  [lit "this"; lit "that"; lit "with"; lit "have"; lit "been"; lit "will";
   lit "from"; lit "they"; lit "were"; lit "said"; lit "each"; lit "which";
   lit "their"; lit "would"; lit "there"; lit "could"; lit "other"].

Definition important_words (words : list pystr) : list pystr :=
  map str_title
    (filter (fun word => (4 <? len word)%Z
                         && negb (str_in (str_lower word) smart_stopwords))
       (firstn 20 words)).

Definition fallback_patterns (important : list pystr) : list pystr :=
  let two := join (lit " ") (firstn 2 important) in
  [ lit "Insights on " ++ two;
    lit "Understanding " ++ two;
    lit "A Deep Dive into " ++ two;
    lit "The Impact of " ++ two;
    lit "Exploring " ++ two ].

Definition _create_smart_fallback_title (content : pystr) (index : nat) : candidate :=
  let words := split_ws content in
  let important := important_words words in
  let patterns := fallback_patterns important in
  let title :=
    if negb (is_empty important)
    then nth (index mod length patterns) patterns []
    else lit "Blog Post #" ++ str_of_nat (index + 1) in
  {| title := title; confidence := 60; method := smart_fallback |}.

Definition basic_titles : list pystr :=
  [lit "New Blog Post"; lit "Latest Article"; lit "Fresh Content";
   lit "Recent Update"; lit "New Insights"].

Definition basic_title (i : nat) : candidate :=
  let title_index := i mod length basic_titles in
  {| title := nth title_index basic_titles []
              ++ (if (length basic_titles <=? i)%nat
                  then lit " #" ++ str_of_nat (i + 1) else []);
     confidence := 40;
     method := basic_fallback |}.

(** [content] is not looked at. *)
Definition _fallback_titles (content : value) (num_titles : Z) : list candidate :=
  map basic_title (seq 0 (Z.to_nat num_titles)).

End Fallbacks.

(** ** [TitleGenerator.generate_titles] *)

(** What one call of [self.summarizer] does: it raises, or it returns a list
    of results, given here by their ['summary_text']. *)
Inductive outcome :=
| Raises
| Returns (summaries : list pystr).

(** The pipeline, called with the prompt; the attempt number stands for the
    temperature [0.9 + i * 0.1] and for the sampling of that call. *)
Definition summarizer := pystr -> nat -> outcome.

(** [fallback not in [t['title'] for t in titles]] compares the dict
    [fallback] with title strings, and a dict is equal to no string. *)
Definition dict_eq_str (d : candidate) (s : pystr) : bool := false.

Definition dict_in (d : candidate) (l : list pystr) : bool :=
  existsb (dict_eq_str d) l.

Section Engine.
Context {U : Unicode}.

(** One iteration of the loop over [range(min(num_titles, 5))]; an exception
    inside it is caught and the loop goes on. *)
Definition ai_attempt (summarize : summarizer) (cleaned_content : pystr)
    (titles : list candidate) (i : nat) : list candidate :=
  match summarize (lit "headline: " ++ cleaned_content) i with
  | Raises => titles
  | Returns [] => titles
  | Returns (summary_text :: _) =>
      let title := _clean_title (strip summary_text) in
      if negb (is_empty title)
         && (3 <=? len (split_ws title))%Z
         && negb (str_in title (titles_of titles))
      then titles ++ [ {| title := title;
                          confidence := Z.max (90 - Z.of_nat i * 10) 60;
                          method := ai |} ]
      else titles
  end.

(** The [while len(titles) < num_titles] loop.  Every iteration that does
    not leave the loop appends one candidate, so [num_titles] iterations
    are enough ([top_up_fuel]). *)
Fixpoint top_up (fuel : nat) (cleaned_content : pystr) (num_titles : Z)
    (titles : list candidate) : list candidate :=
  match fuel with
  | O => titles
  | S fuel' =>
      if (len titles <? num_titles)%Z then
        let fallback := _create_smart_fallback_title cleaned_content (length titles) in
        if negb (dict_in fallback (titles_of titles))
        then top_up fuel' cleaned_content num_titles (titles ++ [fallback])
        else titles
      else titles
  end.

(** The body of the outer [try]. *)
Definition generate_titles_try (model : option summarizer) (content : value)
    (num_titles : Z) : result (list candidate) :=
  cleaned_content <- clean_content content ;;
  if (len (split_ws cleaned_content) <? 10)%Z
  then Ok (_fallback_titles (VStr cleaned_content) num_titles)
  else
    match model with
    | None => Ok (_rule_based_titles cleaned_content num_titles)
    | Some summarize =>
        let titles :=
          fold_left (ai_attempt summarize cleaned_content)
            (seq 0 (Z.to_nat (Z.min num_titles 5))) [] in
        let titles :=
          top_up (Z.to_nat num_titles) cleaned_content num_titles titles in
        Ok (slice_to num_titles titles)
    end.

(** [model] is [self.summarizer]: [None] when the pipeline did not load. *)
Definition generate_titles (model : option summarizer) (content : value)
    (num_titles : Z) : list candidate :=
  match generate_titles_try model content num_titles with
  | Ok titles => titles
  | Raise _ => _fallback_titles content num_titles
  end.

(** ** [SuggestTitlesView.post] *)

(** [request.data], with the two keys the view reads. *)
Record request := {
  data_content : option value;
  data_max_suggestions : option value
}.

Inductive response :=
| BadRequest (error : pystr)
| Success (suggestions : list candidate)
| ServerError.

(** [d.get(key, default)] *)
Definition get (field : option value) (default : value) : value :=
  match field with
  | Some v => v
  | None => default
  end.

(** [v.strip()] *)
Definition py_strip (v : value) : result pystr :=
  match v with
  | VStr s => Ok (strip s)
  | _ => Raise AttributeError
  end.

(** [int(v)] *)
Definition py_int (v : value) : result Z :=
  match v with
  | VInt z => Ok z
  | VBool b => Ok (if b then 1 else 0)%Z
  | VFloat num den => Ok (Z.quot num (Zpos den))
  | VStr s =>
      match int_of_str s with
      | Some z => Ok z
      | None => Raise ValueError
      end
  | VNone | VOther _ => Raise TypeError
  end.

(** The view up to the call of the engine: a response, or the arguments
    [content] and [max_suggestions] the engine is called with. *)
Definition validate (req : request) : result (response + pystr * Z) :=
  content <- py_strip (get (data_content req) (VStr [])) ;;
  n <- py_int (get (data_max_suggestions req) (VInt 3)) ;;
  let max_suggestions := Z.min n 5 in
  if is_empty content then
    Ok (inl (BadRequest (lit "Content is required")))
  else if (len content <? 20)%Z then
    Ok (inl (BadRequest (lit "Content too short (minimum 20 characters)")))
  else if (5000 <? len content)%Z then
    Ok (inl (BadRequest (lit "Content too long (maximum 5000 characters)")))
  else Ok (inr (content, max_suggestions)).

Definition post (model : option summarizer) (req : request) : response :=
  match validate req with
  | Ok (inl early) => early
  | Ok (inr (content, max_suggestions)) =>
      Success (generate_titles model (VStr content) max_suggestions)
  | Raise _ => ServerError
  end.

(** ** [HealthCheckView.get] *)

Inductive model_status_t := healthy | unhealthy.

(** The fields of the response that are not constants of the service. *)
Record health := {
  status : model_status_t;
  model_status : model_status_t
}.

Definition health_content : pystr := lit "This is a test content for health check.".

(** [generate_titles] catches what it raises, so the [except] of the view
    has nothing to catch. *)
Definition health_check (model : option summarizer) : health :=
  let test_result := generate_titles model (VStr health_content) 1 in
  {| status := healthy;
     model_status := if negb (is_empty test_result) then healthy else unhealthy |}.

End Engine.

(** ** The tables on the ASCII range *)

Module Ascii7.

Open Scope N_scope.

Definition is_upper (c : char) : bool := (65 <=? c) && (c <=? 90).
Definition is_lower (c : char) : bool := (97 <=? c) && (c <=? 122).
Definition is_digit (c : char) : bool := (48 <=? c) && (c <=? 57).
Definition is_cased (c : char) : bool := is_upper c || is_lower c.
Definition isalnum (c : char) : bool := is_cased c || is_digit c.

Definition to_upper (c : char) : char := if is_lower c then c - 32 else c.
Definition to_lower (c : char) : char := if is_upper c then c + 32 else c.

Definition upper (s : pystr) : pystr := map to_upper s.
Definition lower (s : pystr) : pystr := map to_lower s.

Definition capitalize (s : pystr) : pystr :=
  match s with
  | [] => []
  | c :: r => to_upper c :: lower r
  end.

(** [str.title]: a letter after a letter is lowered, any other letter is
    raised. *)
Fixpoint title_from (previous_is_cased : bool) (s : pystr) : pystr :=
  match s with
  | [] => []
  | c :: r =>
      (if previous_is_cased then to_lower c else to_upper c)
        :: title_from (is_cased c) r
  end.

Definition title (s : pystr) : pystr := title_from false s.

(** Digits with single underscores between them. *)
Fixpoint digits (acc : Z) (after_digit : bool) (s : pystr) : option Z :=
  match s with
  | [] => if after_digit then Some acc else None
  | c :: r =>
      if is_digit c then digits (acc * 10 + Z.of_N (c - 48)) true r
      else if (c =? 95) && after_digit then digits acc false r
      else None
  end.

Definition parse_int (s : pystr) : option Z :=
  match strip s with
  | 45 :: r => option_map Z.opp (digits 0 false r)
  | 43 :: r => digits 0 false r
  | r => digits 0 false r
  end.

Close Scope N_scope.

#[export] Instance tables : Unicode := {|
  str_isalnum := isalnum;
  str_upper := upper;
  str_lower := lower;
  str_capitalize := capitalize;
  str_title := title;
  int_of_str := parse_int
|}.

End Ascii7.

(** * The vocabulary of the statements *)

(** ** Inputs *)

(** 800 hyphens and a period: one sentence of exactly 800 characters. *)
Definition full_sentence : pystr := repeat 45%N 800 ++ lit ".".

(** A request with acceptable content that asks for 0 suggestions. *)
Definition request_zero : request :=
  {| data_content := Some (VStr (lit "twenty characters of text"));
     data_max_suggestions := Some (VInt 0) |}.

(** The same content with a [max_suggestions] that is no number. *)
Definition request_word : request :=
  {| data_content := Some (VStr (lit "twenty characters of text"));
     data_max_suggestions := Some (VStr (lit "many")) |}.

Definition cloud_content : pystr :=
  lit "cloud servers are the best thing to happen since sliced bread".

Definition services_content : pystr :=
  lit "microservices architecture lets teams ship small services on their own schedule".

(** Two answers of the model. *)
Definition bread_headline : pystr :=
  lit "why cloud servers are the best thing since sliced bread".

Definition impact_headline : pystr :=
  lit "the impact of microservices architecture".

(** A model that answers every attempt with the same headline. *)
Definition constant_model (headline : pystr) : summarizer :=
  fun _ _ => Returns [headline].

(** A model whose first three attempts fail and whose later attempts
    answer with one headline. *)
Definition late_model (headline : pystr) : summarizer :=
  fun _ i => if (i <? 3)%nat then Raises else Returns [headline].

(** ** Titles and words *)

(** The text the formatter splits into words: quotes removed, backticks
    replaced, whitespace collapsed, trailing periods dropped. *)
Definition title_text (title : pystr) : pystr :=
  rstrip_dots (collapse_ws (strip
    (replace_char BACKTICK APOSTROPHE
       (replace_char APOSTROPHE APOSTROPHE (remove_char DQUOTE title))))).

(** A character that is no whitespace, no double quote and no backtick. *)
Definition plain (c : char) : Prop :=
  isspace c = false /\ c <> DQUOTE /\ c <> BACKTICK.

(** A word of a formatted title. *)
Definition word_ok (w : pystr) : Prop := w <> [] /\ Forall plain w.

(** ** The rule-based tier, index by index *)

Section RuleBasedIndex.
Context {U : Unicode}.

(** The candidate of iteration [i]: template [i] (cycled), filled with the
    [i]-th key phrase. *)
Definition rule_candidate (phrases : list pystr) (i : nat) : candidate :=
  {| title := format (nth (i mod length templates) templates ([], []))
                     (nth i phrases []);
     confidence := 70 - Z.of_nat i * 10;
     method := rule_based |}.

(** Iteration [i] emits when its phrase has not come at a smaller index. *)
Definition first_occurrence (phrases : list pystr) (i : nat) : bool :=
  negb (str_in (nth i phrases []) (firstn i phrases)).

Definition rule_invariant (phrases : list pystr) (i : nat)
    (st : list candidate * list pystr) : Prop :=
  fst st = map (rule_candidate phrases) (filter (first_occurrence phrases) (seq 0 i))
  /\ forall x, In x (snd st) <-> In x (firstn i phrases).

End RuleBasedIndex.

(** The candidate the claim describes for position [i]: template [i]
    (cycled) filled with the [i]-th of the distinct key phrases, with the
    floored confidence. *)
Definition rule_candidate_claimed (phrases : list pystr) (i : nat) : candidate :=
  {| title := format (nth (i mod length templates) templates ([], []))
                     (nth i (nodup (list_eq_dec N.eq_dec) phrases) []);
     confidence := Z.max (70 - Z.of_nat i * 10) 0;
     method := rule_based |}.

(** ** The model unavailable *)

(** The reading of the claim: the rule-based tier takes the place of the AI
    tier, and the top-up loop and the truncation follow. *)
Definition generate_titles_topped_up {U : Unicode} (cleaned_content : pystr)
    (num_titles : Z) : list candidate :=
  let titles := _rule_based_titles cleaned_content num_titles in
  let titles := top_up (Z.to_nat num_titles) cleaned_content num_titles titles in
  slice_to num_titles titles.

(** ** Confidence *)

(** [b] may follow [a] in a response. *)
Definition by_confidence (a b : candidate) : Prop :=
  (confidence b <= confidence a)%Z.

(** The confidences a tier gives out. *)
Definition tier_confidence (c : candidate) : Prop :=
  match method c with
  | ai => (60 <= confidence c <= 90)%Z
  | rule_based => (confidence c <= 70)%Z
  | smart_fallback => confidence c = 60%Z
  | basic_fallback => confidence c = 40%Z
  end.

(** Ordered by confidence, every confidence at least [lo] and of its tier. *)
Definition graded (lo : Z) (titles : list candidate) : Prop :=
  StronglySorted by_confidence titles
  /\ Forall (fun c => (lo <= confidence c)%Z /\ tier_confidence c) titles.

(** The rank of a tier in the claimed strict order. *)
Definition tier_rank (m : method_t) : nat :=
  match m with
  | ai => 0
  | rule_based => 1
  | smart_fallback => 2
  | basic_fallback => 3
  end.

(** The order the claim states: a candidate of an earlier tier has a
    strictly greater confidence than one of a later tier. *)
Definition strictly_tiered (titles : list candidate) : Prop :=
  forall a b, In a titles -> In b titles ->
    (tier_rank (method a) < tier_rank (method b))%nat ->
    (confidence b < confidence a)%Z.

(** Two sentences of 500 characters, the second without its period. *)
Definition two_sentences : pystr :=
  repeat 97%N 500 ++ lit "." ++ repeat 98%N 500.

(** ** The AI phase *)

(** The candidates the loop over [range(min(num_titles, 5))] accepts. *)
Definition ai_phase {U : Unicode} (summarize : summarizer) (cleaned_content : pystr)
    (num_titles : Z) : list candidate :=
  fold_left (ai_attempt summarize cleaned_content)
    (seq 0 (Z.to_nat (Z.min num_titles 5))) [].

(** What the loop accepts: AI candidates with pairwise different titles of
    at least three words. *)
Definition accepted_ok (titles : list candidate) : Prop :=
  Forall (fun c => method c = ai /\ (3 <= len (split_ws (title c)))%Z) titles
  /\ NoDup (titles_of titles).

(** ** Counting words *)

(** The number of words that begin in [s]; [in_word] says that the
    character before [s] is part of a word. *)
Fixpoint words_from (in_word : bool) (s : pystr) : nat :=
  match s with
  | [] => 0
  | c :: r =>
      if isspace c then words_from false r
      else (if in_word then 0 else 1) + words_from true r
  end.

(** The number of non-empty pieces. *)
Definition count_words (pieces : list pystr) : nat :=
  length (filter (fun w => negb (is_empty w)) pieces).

(** * Properties *)

(** ** Lengths *)

Lemma len_app (A : Type) (l1 l2 : list A) : len (l1 ++ l2) = (len l1 + len l2)%Z.
Proof. unfold len. rewrite length_app. lia. Qed.

Lemma len_nonneg (A : Type) (l : list A) : (0 <= len l)%Z.
Proof. unfold len. lia. Qed.

Lemma is_empty_true (A : Type) (l : list A) : is_empty l = true -> l = [].
Proof. destruct l; [reflexivity | discriminate]. Qed.

(** ** The content cleaner *)

Section CleanerFacts.
Context {U : Unicode}.

Lemma clean_text_unfold (raw : pystr) :
  clean_text raw =
    let content := cleaned_unsplit raw in
    if (800 <? len content)%Z then
      let content := reassemble [] (split_dot content) in
      if is_empty content then firstn 800 content ++ lit "..." else content
    else content.
Proof. reflexivity. Qed.

(** The loop never lets the text grow past 801: it tests the bound before
    it appends the period. *)
Lemma reassemble_len (sentences : list pystr) :
  forall content, (len content <= 801)%Z ->
    (len (reassemble content sentences) <= 801)%Z.
Proof.
  induction sentences as [| sentence rest IH]; intros content Hc; simpl.
  - exact Hc.
  - destruct (Z.ltb_spec 800 (len (content ++ sentence))) as [Hgt | Hle].
    + exact Hc.
    + apply IH. rewrite app_assoc, len_app. change (len (lit ".")) with 1%Z. lia.
Qed.

Lemma reassemble_first_too_long (sentence : pystr) (rest : list pystr) :
  (800 < len sentence)%Z -> reassemble [] (sentence :: rest) = [].
Proof.
  intros H. simpl. destruct (Z.ltb_spec 800 (len sentence)); [reflexivity | lia].
Qed.

Lemma split_by_nonempty (p : char -> bool) (s : pystr) : split_by p s <> [].
Proof.
  induction s as [| c r IH]; simpl; [discriminate |].
  destruct (p c); [discriminate |]. destruct (split_by p r); discriminate.
Qed.

Lemma clean_text_len (raw : pystr) : (len (clean_text raw) <= 801)%Z.
Proof.
  rewrite clean_text_unfold. cbv zeta.
  destruct (Z.ltb_spec 800 (len (cleaned_unsplit raw))) as [Hgt | Hle]; [| lia].
  destruct (is_empty (reassemble [] (split_dot (cleaned_unsplit raw)))) eqn:E.
  - apply is_empty_true in E. rewrite E. vm_compute. discriminate.
  - apply reassemble_len. vm_compute. discriminate.
Qed.

Lemma keep_char_dash_dot (c : char) : c = 45%N \/ c = DOT -> keep_char c = true.
Proof.
  intros [-> | ->]; unfold keep_char;
    destruct (str_isalnum _); reflexivity.
Qed.

Lemma filter_all (A : Type) (p : A -> bool) (l : list A) :
  Forall (fun x => p x = true) l -> filter p l = l.
Proof.
  induction 1 as [| x l Hx _ IH]; simpl; [reflexivity |].
  rewrite Hx, IH. reflexivity.
Qed.

End CleanerFacts.

Lemma full_sentence_cleaned {U : Unicode} : cleaned_unsplit full_sentence = full_sentence.
Proof.
  unfold cleaned_unsplit.
  match goal with |- filter _ ?s = _ =>
    replace s with full_sentence by (vm_compute; reflexivity) end.
  apply filter_all. unfold full_sentence. apply Forall_app. split.
  - apply Forall_forall. intros c Hc. apply repeat_spec in Hc.
    apply keep_char_dash_dot. left. exact Hc.
  - constructor; [| constructor]. apply keep_char_dash_dot. right. reflexivity.
Qed.

(** C10.  Whatever the input string, [clean_content] returns at most 801
    characters, and 801 are reached: the loop tests the 800 bound before it
    puts the period back, so a sentence of exactly 800 characters comes out
    with its period as 801 characters. *)
Theorem clean_content_length_801 :
  (forall (U : Unicode) (raw : pystr),
      exists s, clean_content (VStr raw) = Ok s /\ (len s <= 801)%Z)
  /\ (exists raw : pystr, forall U : Unicode,
      exists s, clean_content (VStr raw) = Ok s /\ len s = 801%Z).
Proof.
  split.
  - intros U raw. unfold clean_content. destruct raw as [| c r]; simpl.
    + exists []. split; [reflexivity | vm_compute; discriminate].
    + exists (clean_text (c :: r)). split; [reflexivity | apply clean_text_len].
  - exists full_sentence. intros U. exists full_sentence. split.
    + unfold clean_content.
      replace (truthy (VStr full_sentence)) with true by (vm_compute; reflexivity).
      simpl negb. cbv iota. f_equal.
      rewrite clean_text_unfold, full_sentence_cleaned. vm_compute. reflexivity.
    + vm_compute. reflexivity.
Qed.

(** C1.  When the first sentence alone is longer than 800 characters the
    loop keeps nothing, and the hard truncation then slices the emptied
    variable: the result is the bare ["..."], not the first 800 characters
    of the cleaned text followed by ["..."]. *)
Theorem clean_content_first_sentence_too_long (U : Unicode) (raw : pystr) :
  (800 < len (cleaned_unsplit raw))%Z ->
  (800 < len (hd [] (split_dot (cleaned_unsplit raw))))%Z ->
  clean_content (VStr raw) = Ok (lit "...")
  /\ lit "..." <> firstn 800 (cleaned_unsplit raw) ++ lit "...".
Proof.
  intros Hlong Hfirst. split.
  - unfold clean_content. destruct raw as [| c r].
    + exfalso. revert Hlong. vm_compute. discriminate.
    + simpl truthy. simpl negb. cbv iota. f_equal.
      rewrite clean_text_unfold. cbv zeta.
      destruct (Z.ltb_spec 800 (len (cleaned_unsplit (c :: r)))); [| lia].
      destruct (split_dot (cleaned_unsplit (c :: r))) as [| sentence rest] eqn:E.
      * exfalso. revert E. apply split_by_nonempty.
      * simpl in Hfirst. rewrite reassemble_first_too_long by exact Hfirst.
        reflexivity.
  - intros Heq. apply (f_equal (@len char)) in Heq.
    rewrite len_app in Heq. unfold len in Heq, Hlong.
    rewrite length_firstn in Heq. change (length (lit "...")) with 3%nat in Heq.
    lia.
Qed.

(** 801 letters [a] and no period. *)
Lemma clean_content_first_sentence_too_long_801 :
  clean_content (U := Ascii7.tables) (VStr (repeat 97%N 801)) = Ok (lit "...")
  /\ lit "..." <> firstn 800 (cleaned_unsplit (U := Ascii7.tables) (repeat 97%N 801))
                  ++ lit "...".
Proof.
  apply (@clean_content_first_sentence_too_long Ascii7.tables (repeat 97%N 801)).
  - vm_compute. reflexivity.
  - vm_compute. reflexivity.
Defined.

(** ** The title formatter *)

(** C2.  On ["the ai guide to saas"] the formatter returns
    ["The AI Guide to Saas"]: the first word is capitalized, [ai] is found
    in [always_caps] and the stopword [to] stays lowercase, but the
    upper-cased [SAAS] is looked up in a set that lists it as [SaaS], is not
    found, and the word is capitalized like any word longer than 3. *)
Theorem clean_title_the_ai_guide_to_saas :
  _clean_title (U := Ascii7.tables) (lit "the ai guide to saas")
    = lit "The AI Guide to Saas"
  /\ _clean_title (U := Ascii7.tables) (lit "the ai guide to saas")
    <> lit "The AI Guide to SaaS"
  /\ str_in (lit "SaaS") always_caps = true
  /\ str_in (Ascii7.upper (lit "saas")) always_caps = false.
Proof.
  repeat split; try (vm_compute; reflexivity).
  vm_compute. discriminate.
Qed.

Module Ascii7Facts.
Import Ascii7.

Ltac case_chars :=
  unfold to_upper, to_lower, is_cased, is_upper, is_lower, isspace,
    DQUOTE, BACKTICK, SPACE, DOT in *;
  repeat match goal with
    | |- context [N.leb ?a ?b] => destruct (N.leb_spec a b)
    | |- context [N.eqb ?a ?b] => destruct (N.eqb_spec a b)
    | H : context [N.leb ?a ?b] |- _ => destruct (N.leb_spec a b)
    | H : context [N.eqb ?a ?b] |- _ => destruct (N.eqb_spec a b)
    end;
  simpl in *; try reflexivity; try discriminate; try lia.

Lemma to_upper_upper c : to_upper (to_upper c) = to_upper c.
Proof. case_chars. Qed.

Lemma to_lower_lower c : to_lower (to_lower c) = to_lower c.
Proof. case_chars. Qed.

Lemma to_upper_lower c : to_upper (to_lower c) = to_upper c.
Proof. case_chars. Qed.

Lemma to_lower_upper c : to_lower (to_upper c) = to_lower c.
Proof. case_chars. Qed.

Lemma upper_upper w : upper (upper w) = upper w.
Proof. unfold upper. rewrite map_map. apply map_ext. apply to_upper_upper. Qed.

Lemma lower_lower w : lower (lower w) = lower w.
Proof. unfold lower. rewrite map_map. apply map_ext. apply to_lower_lower. Qed.

Lemma upper_lower w : upper (lower w) = upper w.
Proof. unfold upper, lower. rewrite map_map. apply map_ext. apply to_upper_lower. Qed.

Lemma lower_upper w : lower (upper w) = lower w.
Proof. unfold upper, lower. rewrite map_map. apply map_ext. apply to_lower_upper. Qed.

Lemma upper_capitalize w : upper (capitalize w) = upper w.
Proof.
  destruct w as [| c r]; [reflexivity |]. simpl.
  rewrite to_upper_upper. fold (lower r). fold (upper (lower r)).
  rewrite upper_lower. reflexivity.
Qed.

Lemma lower_capitalize w : lower (capitalize w) = lower w.
Proof.
  destruct w as [| c r]; [reflexivity |]. simpl.
  rewrite to_lower_upper. fold (lower r). fold (lower (lower r)).
  rewrite lower_lower. reflexivity.
Qed.

Lemma capitalize_capitalize w : capitalize (capitalize w) = capitalize w.
Proof.
  destruct w as [| c r]; [reflexivity |]. simpl.
  rewrite to_upper_upper, lower_lower. reflexivity.
Qed.

Lemma len_upper w : len (upper w) = len w.
Proof. unfold len, upper. rewrite length_map. reflexivity. Qed.

Lemma len_lower w : len (lower w) = len w.
Proof. unfold len, lower. rewrite length_map. reflexivity. Qed.

Lemma len_capitalize w : len (capitalize w) = len w.
Proof.
  destruct w as [| c r]; [reflexivity |]. unfold len. simpl.
  unfold lower. rewrite length_map. reflexivity.
Qed.

(** The casing of a word at its position is stable. *)
Lemma case_word_idempotent (i : nat) (w : pystr) :
  case_word (U := tables) i (case_word (U := tables) i w)
    = case_word (U := tables) i w.
Proof.
  unfold case_word. cbn [str_upper str_lower str_capitalize tables].
  destruct (str_in (upper w) always_caps) eqn:Ecaps.
  { rewrite upper_upper, Ecaps. reflexivity. }
  destruct (Nat.eqb i 0) eqn:Ei.
  { rewrite upper_capitalize, Ecaps, capitalize_capitalize. reflexivity. }
  destruct (str_in (lower w) articles_prepositions) eqn:Estop.
  { rewrite upper_lower, Ecaps, lower_lower, Estop. reflexivity. }
  destruct (3 <? len w)%Z eqn:Elen.
  { rewrite upper_capitalize, Ecaps, lower_capitalize, Estop,
      len_capitalize, Elen, capitalize_capitalize. reflexivity. }
  rewrite upper_lower, Ecaps, lower_lower, Estop, len_lower, Elen.
  reflexivity.
Qed.

Lemma case_words_idempotent (ws : list pystr) :
  forall i, case_words (U := tables) i (case_words (U := tables) i ws)
            = case_words (U := tables) i ws.
Proof.
  induction ws as [| w r IH]; intros i; simpl; [reflexivity |].
  rewrite case_word_idempotent, IH. reflexivity.
Qed.

End Ascii7Facts.

(** ** Splitting and joining *)

Section Words.

Variable p : char -> bool.

Lemma split_by_no_separator (w : pystr) :
  Forall (fun c => p c = false) w -> split_by p w = [w].
Proof.
  induction 1 as [| c r Hc _ IH]; simpl; [reflexivity |].
  rewrite Hc, IH. reflexivity.
Qed.

Lemma split_by_app (w x : pystr) (c : char) :
  Forall (fun c => p c = false) w -> p c = true ->
  split_by p (w ++ c :: x) = w :: split_by p x.
Proof.
  intros Hw Hc. induction Hw as [| d r Hd _ IH]; simpl.
  - rewrite Hc. reflexivity.
  - rewrite Hd, IH. reflexivity.
Qed.

(** A piece has no separator in it and is made of characters of the text. *)
Lemma split_by_pieces (s : pystr) :
  forall w, In w (split_by p s) -> Forall (fun c => p c = false /\ In c s) w.
Proof.
  induction s as [| c r IH]; simpl; intros w Hw.
  - destruct Hw as [<- | []]. constructor.
  - destruct (p c) eqn:Hc.
    + destruct Hw as [<- | Hw]; [constructor |].
      eapply Forall_impl; [| apply IH, Hw]. simpl. intros a [H1 H2]. auto.
    + destruct (split_by p r) as [| w0 ws] eqn:E.
      * destruct Hw as [<- | []]. constructor; [auto | constructor].
      * destruct Hw as [<- | Hw].
        -- constructor; [auto |].
           eapply Forall_impl; [| apply IH; left; reflexivity].
           simpl. intros a [H1 H2]. auto.
        -- eapply Forall_impl; [| apply IH; right; exact Hw].
           simpl. intros a [H1 H2]. auto.
Qed.

Lemma lstrip_by_incl (s : pystr) (c : char) : In c (lstrip_by p s) -> In c s.
Proof.
  induction s as [| d r IH]; simpl; [auto |].
  destruct (p d); [right; auto | auto].
Qed.

Lemma rstrip_by_incl (s : pystr) (c : char) : In c (rstrip_by p s) -> In c s.
Proof.
  induction s as [| d r IH]; simpl; [auto |].
  destruct (rstrip_by p r) as [| e r'].
  - destruct (p d); simpl; [tauto | intros [-> | []]; auto].
  - intros [-> | H]; [auto | right; apply IH; exact H].
Qed.

Lemma lstrip_by_head (c : char) (r : pystr) :
  p c = false -> lstrip_by p (c :: r) = c :: r.
Proof. intros H. simpl. rewrite H. reflexivity. Qed.

Lemma rstrip_by_last (s : pystr) (c : char) :
  p c = false -> rstrip_by p (s ++ [c]) = s ++ [c].
Proof.
  intros H. induction s as [| d r IH]; simpl.
  - rewrite H. reflexivity.
  - rewrite IH. destruct (r ++ [c]) eqn:E; [| reflexivity].
    destruct r; discriminate.
Qed.

End Words.

Lemma isspace_SPACE : isspace SPACE = true.
Proof. reflexivity. Qed.

Lemma plain_not_space (w : pystr) :
  Forall plain w -> Forall (fun c => isspace c = false) w.
Proof. apply Forall_impl. intros c [H _]. exact H. Qed.

Lemma collapse_from_word (w x : pystr) (b : bool) :
  Forall plain w ->
  collapse_from b (w ++ x) = w ++ collapse_from (match w with [] => b | _ => false end) x.
Proof.
  intros Hw. revert b. induction Hw as [| c r [Hc _] _ IH]; intros b; simpl.
  - reflexivity.
  - rewrite Hc, IH. destruct r; reflexivity.
Qed.

Lemma collapse_from_join (ws : list pystr) :
  Forall word_ok ws -> forall b, collapse_from b (join [SPACE] ws) = join [SPACE] ws.
Proof.
  induction 1 as [| w r [Hne Hw] Hr IH]; intros b; [reflexivity |].
  destruct r as [| w' r'].
  - simpl. rewrite <- (app_nil_r w) at 1. rewrite collapse_from_word by exact Hw.
    simpl. apply app_nil_r.
  - change (join [SPACE] (w :: w' :: r')) with (w ++ [SPACE] ++ join [SPACE] (w' :: r')).
    rewrite collapse_from_word by exact Hw.
    destruct w as [| c w0]; [contradiction |].
    simpl collapse_from. rewrite IH. reflexivity.
Qed.

Lemma split_ws_join (ws : list pystr) :
  Forall word_ok ws -> split_ws (join [SPACE] ws) = ws.
Proof.
  unfold split_ws.
  induction 1 as [| w r [Hne Hw] Hr IH]; [reflexivity |].
  destruct r as [| w' r'].
  - simpl join. rewrite split_by_no_separator by (apply plain_not_space, Hw).
    simpl. destruct w; [contradiction | reflexivity].
  - change (join [SPACE] (w :: w' :: r')) with (w ++ SPACE :: join [SPACE] (w' :: r')).
    rewrite split_by_app by (try apply plain_not_space; auto using isspace_SPACE).
    destruct w as [| c w0]; [contradiction |].
    cbn [filter is_empty negb]. rewrite IH. reflexivity.
Qed.

(** The joined words begin and end with a plain character. *)
Lemma join_ends (ws : list pystr) :
  Forall word_ok ws -> ws <> [] ->
  (exists c r, join [SPACE] ws = c :: r /\ plain c)
  /\ (exists r c, join [SPACE] ws = r ++ [c] /\ plain c).
Proof.
  induction 1 as [| w r [Hne Hw] Hr IH]; intros Hnil; [contradiction |].
  split.
  - destruct w as [| c w0]; [contradiction |]. inversion Hw; subst.
    destruct r; simpl; eauto.
  - destruct r as [| w' r'].
    + simpl. destruct (exists_last Hne) as [r0 [c ->]].
      exists r0, c. split; [reflexivity |].
      apply Forall_app in Hw. destruct Hw as [_ Hc]. inversion Hc; assumption.
    + destruct IH as [_ [r0 [c [E Hc]]]]; [discriminate |].
      change (join [SPACE] (w :: w' :: r')) with (w ++ [SPACE] ++ join [SPACE] (w' :: r')).
      rewrite E. exists (w ++ [SPACE] ++ r0), c. split; [| exact Hc].
      rewrite <- !app_assoc. reflexivity.
Qed.

Lemma join_plain_or_space (ws : list pystr) :
  Forall word_ok ws -> Forall (fun c => plain c \/ c = SPACE) (join [SPACE] ws).
Proof.
  induction 1 as [| w r [Hne Hw] Hr IH]; [constructor |].
  destruct r as [| w' r'].
  - simpl. eapply Forall_impl; [| exact Hw]. auto.
  - change (join [SPACE] (w :: w' :: r')) with (w ++ [SPACE] ++ join [SPACE] (w' :: r')).
    apply Forall_app. split; [eapply Forall_impl; [| exact Hw]; auto |].
    apply Forall_app. split; [constructor; auto | exact IH].
Qed.

Lemma strip_join (ws : list pystr) :
  Forall word_ok ws -> strip (join [SPACE] ws) = join [SPACE] ws.
Proof.
  intros H. destruct ws as [| w r]; [reflexivity |].
  destruct (join_ends H) as [[c [x [E [Hc _]]]] [y [d [E' [Hd _]]]]]; [discriminate |].
  unfold strip. rewrite E, lstrip_by_head by exact Hc. rewrite <- E, E'.
  apply rstrip_by_last. exact Hd.
Qed.

Lemma collapse_from_chars (s : pystr) :
  forall b c, In c (collapse_from b s) -> c = SPACE \/ (isspace c = false /\ In c s).
Proof.
  induction s as [| d r IH]; simpl; intros b c H; [contradiction |].
  destruct (isspace d) eqn:Hd.
  - destruct b.
    + destruct (IH _ _ H) as [-> | [H1 H2]]; auto.
    + destruct H as [<- | H]; [auto |].
      destruct (IH _ _ H) as [-> | [H1 H2]]; auto.
  - destruct H as [<- | H]; [auto |].
    destruct (IH _ _ H) as [-> | [H1 H2]]; auto.
Qed.

Lemma clean_title_unfold {U : Unicode} (s : pystr) :
  _clean_title s =
    if is_empty s then []
    else if is_empty (split_ws (title_text s)) then []
         else join [SPACE] (case_words 0 (split_ws (title_text s))).
Proof. reflexivity. Qed.

Lemma replace_char_same (a : char) (s : pystr) : replace_char a a s = s.
Proof.
  unfold replace_char. rewrite <- (map_id s) at 2. apply map_ext.
  intros c. destruct (N.eqb_spec c a); congruence.
Qed.

Lemma title_text_chars (s : pystr) (c : char) :
  In c (title_text s) -> isspace c = false -> plain c.
Proof.
  unfold title_text, rstrip_dots, collapse_ws, strip. intros Hin Hsp.
  apply rstrip_by_incl in Hin. apply collapse_from_chars in Hin.
  destruct Hin as [-> | [_ Hin]]; [discriminate |].
  apply rstrip_by_incl, lstrip_by_incl in Hin.
  rewrite replace_char_same in Hin. unfold replace_char, remove_char in Hin.
  apply in_map_iff in Hin. destruct Hin as [d [Hd Hin]].
  apply filter_In in Hin. destruct Hin as [_ Hq].
  repeat split; [exact Hsp | |].
  - destruct (N.eqb_spec d BACKTICK); subst; [discriminate |].
    destruct (N.eqb_spec c DQUOTE); [discriminate | assumption].
  - destruct (N.eqb_spec d BACKTICK); subst; [discriminate | assumption].
Qed.

Lemma title_text_words (s : pystr) : Forall word_ok (split_ws (title_text s)).
Proof.
  apply Forall_forall. intros w Hw. unfold split_ws in Hw.
  apply filter_In in Hw. destruct Hw as [Hw Hne]. split.
  - destruct w; [discriminate | discriminate].
  - eapply Forall_impl; [| apply (split_by_pieces _ _ _ Hw)].
    simpl. intros c [H1 H2]. eapply title_text_chars; eauto.
Qed.

Lemma remove_char_absent (a : char) (s : pystr) :
  Forall (fun c => c <> a) s -> remove_char a s = s.
Proof.
  intros H. apply filter_all. eapply Forall_impl; [| exact H].
  simpl. intros c Hc. destruct (N.eqb_spec c a); [contradiction | reflexivity].
Qed.

Lemma replace_char_absent (a b : char) (s : pystr) :
  Forall (fun c => c <> a) s -> replace_char a b s = s.
Proof.
  intros H. unfold replace_char. rewrite <- (map_id s) at 2.
  apply map_ext_in. intros c Hc. rewrite Forall_forall in H.
  destruct (N.eqb_spec c a); [exfalso; eapply H; eauto | reflexivity].
Qed.

Lemma rstrip_by_stable (p : char -> bool) (s : pystr) :
  p (last s 0%N) = false -> s <> [] -> rstrip_by p s = s.
Proof.
  intros Hp Hne. destruct (exists_last Hne) as [r [c ->]].
  rewrite last_last in Hp. apply rstrip_by_last. exact Hp.
Qed.

(** A title made of words, joined by single spaces and not ending in a
    period, is the text the formatter would split. *)
Lemma title_text_join (ws : list pystr) :
  Forall word_ok ws -> ws <> [] ->
  last (join [SPACE] ws) 0%N <> DOT ->
  title_text (join [SPACE] ws) = join [SPACE] ws.
Proof.
  intros Hws Hne Hdot. unfold title_text.
  assert (Hchars := join_plain_or_space Hws).
  rewrite remove_char_absent, replace_char_same, replace_char_absent.
  - rewrite strip_join by exact Hws. unfold collapse_ws.
    rewrite collapse_from_join by exact Hws.
    apply rstrip_by_stable.
    + destruct (N.eqb_spec DOT (last (join [SPACE] ws) 0%N)); congruence.
    + destruct (join_ends Hws Hne) as [[c [r [E _]]] _]. rewrite E. discriminate.
  - eapply Forall_impl; [| exact Hchars]. simpl.
    intros c [[_ [_ H]] | ->]; [exact H | discriminate].
  - eapply Forall_impl; [| exact Hchars]. simpl.
    intros c [[_ [H _]] | ->]; [exact H | discriminate].
Qed.

Module FormatterFacts.
Import Ascii7 Ascii7Facts.

Lemma isspace_range (c : char) : isspace c = true -> (c <= 32 \/ 133 <= c)%N.
Proof.
  unfold isspace. rewrite !orb_true_iff, !andb_true_iff, !N.leb_le, !N.eqb_eq.
  lia.
Qed.

Lemma isspace_below (c : char) : (32 < c < 133)%N -> isspace c = false.
Proof.
  intros H. destruct (isspace c) eqn:E; [| reflexivity].
  apply isspace_range in E. lia.
Qed.

Lemma to_upper_cases (c : char) :
  to_upper c = c \/ (65 <= to_upper c <= 90)%N.
Proof.
  unfold to_upper, is_lower.
  destruct (N.leb_spec 97 c); destruct (N.leb_spec c 122); simpl; auto.
  right. lia.
Qed.

Lemma to_lower_cases (c : char) :
  to_lower c = c \/ (97 <= to_lower c <= 122)%N.
Proof.
  unfold to_lower, is_upper.
  destruct (N.leb_spec 65 c); destruct (N.leb_spec c 90); simpl; auto.
  right. lia.
Qed.

Lemma plain_letter (c : char) : (65 <= c <= 90 \/ 97 <= c <= 122)%N -> plain c.
Proof.
  intros H. repeat split.
  - apply isspace_below. lia.
  - unfold DQUOTE. lia.
  - unfold BACKTICK. lia.
Qed.

Lemma plain_to_upper (c : char) : plain c -> plain (to_upper c).
Proof.
  intros H. destruct (to_upper_cases c) as [-> | Hr]; [exact H |].
  apply plain_letter. lia.
Qed.

Lemma plain_to_lower (c : char) : plain c -> plain (to_lower c).
Proof.
  intros H. destruct (to_lower_cases c) as [-> | Hr]; [exact H |].
  apply plain_letter. lia.
Qed.

Lemma word_ok_upper (w : pystr) : word_ok w -> word_ok (upper w).
Proof.
  intros [Hne Hw]. split.
  - destruct w; [contradiction | discriminate].
  - unfold upper. apply Forall_map. eapply Forall_impl; [| exact Hw].
    apply plain_to_upper.
Qed.

Lemma word_ok_lower (w : pystr) : word_ok w -> word_ok (lower w).
Proof.
  intros [Hne Hw]. split.
  - destruct w; [contradiction | discriminate].
  - unfold lower. apply Forall_map. eapply Forall_impl; [| exact Hw].
    apply plain_to_lower.
Qed.

Lemma word_ok_capitalize (w : pystr) : word_ok w -> word_ok (capitalize w).
Proof.
  intros [Hne Hw]. destruct w as [| c r]; [contradiction |]. split.
  - discriminate.
  - inversion Hw; subst. simpl. constructor; [apply plain_to_upper; assumption |].
    unfold lower. apply Forall_map. eapply Forall_impl; [| eassumption].
    apply plain_to_lower.
Qed.

Lemma word_ok_case_word (i : nat) (w : pystr) :
  word_ok w -> word_ok (case_word (U := tables) i w).
Proof.
  intros H. unfold case_word. cbn [str_upper str_lower str_capitalize tables].
  repeat match goal with |- context [if ?b then _ else _] => destruct b end;
    auto using word_ok_upper, word_ok_lower, word_ok_capitalize.
Qed.

Lemma word_ok_case_words (ws : list pystr) :
  Forall word_ok ws -> forall i, Forall word_ok (case_words (U := tables) i ws).
Proof.
  induction 1 as [| w r Hw _ IH]; intros i; simpl; constructor;
    auto using word_ok_case_word.
Qed.

End FormatterFacts.

(** C9, as the code has it.  On ASCII input whose formatted title does not
    end in a period, formatting the formatted title changes nothing. *)
Theorem clean_title_idempotent_no_final_period (s : pystr) :
  Forall (fun c => (c < 128)%N) s ->
  last (_clean_title (U := Ascii7.tables) s) 0%N <> DOT ->
  _clean_title (U := Ascii7.tables) (_clean_title (U := Ascii7.tables) s)
    = _clean_title (U := Ascii7.tables) s.
Proof.
  intros _ Hdot. rewrite (clean_title_unfold s) in *.
  destruct (is_empty s); [reflexivity |].
  destruct (split_ws (title_text s)) as [| w ws] eqn:E; [reflexivity |].
  cbn [is_empty] in *.
  assert (Hok : Forall word_ok (case_words (U := Ascii7.tables) 0 (w :: ws))).
  { apply FormatterFacts.word_ok_case_words. rewrite <- E. apply title_text_words. }
  assert (Hne : case_words (U := Ascii7.tables) 0 (w :: ws) <> []) by discriminate.
  rewrite clean_title_unfold.
  rewrite (title_text_join Hok Hne Hdot), (split_ws_join Hok).
  rewrite Ascii7Facts.case_words_idempotent.
  destruct (join_ends Hok Hne) as [[c [r [-> _]]] _]. reflexivity.
Qed.

Lemma clean_title_idempotent_hello_world :
  _clean_title (U := Ascii7.tables)
    (_clean_title (U := Ascii7.tables) (lit "  hello `world` of it.. "))
  = _clean_title (U := Ascii7.tables) (lit "  hello `world` of it.. ").
Proof.
  apply (@clean_title_idempotent_no_final_period (lit "  hello `world` of it.. ")).
  - vm_compute. repeat constructor.
  - vm_compute. discriminate.
Defined.

(** C9 as stated fails: ["a. ."] is formatted to ["A."], whose trailing
    period the second pass strips. *)
Lemma clean_title_not_idempotent :
  _clean_title (U := Ascii7.tables) (lit "a. .") = lit "A."
  /\ _clean_title (U := Ascii7.tables) (lit "A.") = lit "A"
  /\ ~ (forall s : pystr,
          _clean_title (U := Ascii7.tables) (_clean_title (U := Ascii7.tables) s)
          = _clean_title (U := Ascii7.tables) s).
Proof.
  split; [vm_compute; reflexivity |]. split; [vm_compute; reflexivity |].
  intros H. specialize (H (lit "a. .")). revert H. vm_compute. discriminate.
Qed.

(** ** The request handler *)

Section HandlerFacts.
Context {U : Unicode}.

(** What [validate] hands to the engine, read off its definition. *)
Lemma validate_engine_call (req : request) (content : pystr) (n : Z) :
  validate req = Ok (inr (content, n)) ->
  py_strip (get (data_content req) (VStr [])) = Ok content
  /\ exists k, py_int (get (data_max_suggestions req) (VInt 3)) = Ok k
               /\ n = Z.min k 5.
Proof.
  unfold validate, bind.
  destruct (py_strip (get (data_content req) (VStr []))) as [c | e]; [| discriminate].
  destruct (py_int (get (data_max_suggestions req) (VInt 3))) as [k | e]; [| discriminate].
  destruct (is_empty c); [discriminate |].
  destruct (len c <? 20)%Z; [discriminate |].
  destruct (5000 <? len c)%Z; [discriminate |].
  intros H. inversion H; subst. split; [reflexivity |]. exists k. auto.
Qed.

End HandlerFacts.

(** C4 as stated fails: a request for 0 suggestions passes validation and
    the engine is called with 0, below 1; a [max_suggestions] that [int]
    rejects is answered with the server error, not replaced by 3. *)
Lemma post_max_suggestions_not_clamped :
  validate (U := Ascii7.tables) request_zero
    = Ok (inr (lit "twenty characters of text", 0%Z))
  /\ ~ (forall (req : request) (content : pystr) (n : Z),
          validate (U := Ascii7.tables) req = Ok (inr (content, n)) ->
          (1 <= n <= 5)%Z)
  /\ (forall model, post (U := Ascii7.tables) model request_word = ServerError).
Proof.
  split; [vm_compute; reflexivity |]. split.
  - intros H.
    specialize (H request_zero (lit "twenty characters of text") 0%Z).
    assert (E : validate (U := Ascii7.tables) request_zero
                = Ok (inr (lit "twenty characters of text", 0%Z)))
      by (vm_compute; reflexivity).
    specialize (H E). lia.
  - intros model. vm_compute. reflexivity.
Qed.

(** C4, as the code has it.  When the engine is called, it is called with
    [min(int(max_suggestions), 5)], where an absent [max_suggestions] counts
    as 3: never more than 5, with no lower bound; and a [max_suggestions]
    that [int] rejects ends the request with the server error. *)
Theorem post_max_suggestions_capped (U : Unicode) (model : option summarizer)
    (req : request) :
  (forall content n,
      validate req = Ok (inr (content, n)) ->
      post model req = Success (generate_titles model (VStr content) n)
      /\ (n <= 5)%Z
      /\ (exists k, py_int (get (data_max_suggestions req) (VInt 3)) = Ok k
                    /\ n = Z.min k 5)
      /\ (data_max_suggestions req = None -> n = 3%Z))
  /\ (forall e, py_int (get (data_max_suggestions req) (VInt 3)) = Raise e ->
                post model req = ServerError).
Proof.
  split.
  - intros content n H. split; [unfold post; rewrite H; reflexivity |].
    destruct (validate_engine_call _ H) as [_ [k [Hk ->]]].
    split; [lia |]. split; [eauto |].
    intros Habs. rewrite Habs in Hk. simpl in Hk. inversion Hk. reflexivity.
  - intros e He. unfold post, validate, bind.
    destruct (py_strip (get (data_content req) (VStr []))); [| reflexivity].
    rewrite He. reflexivity.
Qed.

Lemma post_max_suggestions_capped_at_zero :
  post (U := Ascii7.tables) None request_zero
    = Success (generate_titles (U := Ascii7.tables) None
                 (VStr (lit "twenty characters of text")) 0)
  /\ (0 <= 5)%Z
  /\ (exists k, py_int (U := Ascii7.tables)
                  (get (data_max_suggestions request_zero) (VInt 3)) = Ok k
                /\ 0%Z = Z.min k 5)
  /\ (data_max_suggestions request_zero = None -> 0%Z = 3%Z).
Proof.
  apply (proj1 (@post_max_suggestions_capped Ascii7.tables None request_zero)
           (lit "twenty characters of text") 0%Z).
  vm_compute. reflexivity.
Defined.

(** ** The tiers *)

Section TierFacts.
Context {U : Unicode}.

Lemma fallback_titles_length (content : value) (n : Z) :
  length (_fallback_titles content n) = Z.to_nat n.
Proof. unfold _fallback_titles. rewrite length_map, length_seq. reflexivity. Qed.

Lemma rule_step_length (phrases : list pystr) st (i : nat) :
  (length (fst (rule_step phrases st i)) <= S (length (fst st)))%nat.
Proof.
  destruct st as [titles used]. unfold rule_step.
  destruct (nth_error phrases i); [| simpl; lia].
  destruct (negb _); simpl; [rewrite length_app; simpl; lia | lia].
Qed.

Lemma fold_rule_step_length (phrases : list pystr) (l : list nat) :
  forall st,
    (length (fst (fold_left (rule_step phrases) l st))
     <= length (fst st) + length l)%nat.
Proof.
  induction l as [| i r IH]; intros st; simpl; [lia |].
  specialize (IH (rule_step phrases st i)).
  pose proof (rule_step_length phrases st i). lia.
Qed.

Lemma rule_based_titles_length (content : pystr) (n : Z) :
  (length (_rule_based_titles content n) <= Z.to_nat n)%nat.
Proof.
  unfold _rule_based_titles.
  pose proof (fold_rule_step_length (key_phrases (split_ws content))
                (seq 0 (Z.to_nat (Z.min n (len (key_phrases (split_ws content))))))
                ([], [])) as H.
  rewrite length_seq in H. simpl in H. lia.
Qed.

Lemma slice_to_length (A : Type) (n : Z) (l : list A) :
  (0 <= n)%Z -> (length (slice_to n l) <= Z.to_nat n)%nat.
Proof.
  intros H. unfold slice_to. destruct (Z.ltb_spec n 0); [lia |].
  rewrite length_firstn. lia.
Qed.

(** Nothing is attempted and nothing topped up when no title is asked for. *)
Lemma ai_path_nothing_asked (summarize : summarizer) (cleaned : pystr) (n : Z) :
  (n <= 0)%Z ->
  slice_to n
    (top_up (Z.to_nat n) cleaned n
       (fold_left (ai_attempt summarize cleaned)
          (seq 0 (Z.to_nat (Z.min n 5))) [])) = [].
Proof.
  intros H. replace (Z.to_nat (Z.min n 5)) with 0%nat by lia.
  replace (Z.to_nat n) with 0%nat by lia. simpl.
  unfold slice_to. destruct (n <? 0)%Z; apply firstn_nil.
Qed.

Lemma generate_titles_length (model : option summarizer) (content : value) (n : Z) :
  (length (generate_titles model content n) <= Z.to_nat n)%nat.
Proof.
  unfold generate_titles, generate_titles_try, bind.
  destruct (clean_content content) as [cleaned | e].
  - destruct (len (split_ws cleaned) <? 10)%Z.
    + rewrite fallback_titles_length. lia.
    + destruct model as [summarize |].
      * destruct (Z.le_gt_cases n 0) as [Hn | Hn].
        -- rewrite ai_path_nothing_asked by exact Hn. simpl. lia.
        -- apply slice_to_length. lia.
      * apply rule_based_titles_length.
  - rewrite fallback_titles_length. lia.
Qed.

End TierFacts.

(** C5.  A call of [generate_titles] for 1 to 5 titles returns at most that
    many candidates, and no response of the view carries more than 5. *)
Theorem generate_titles_at_most_num_titles :
  (forall (U : Unicode) (model : option summarizer) (content : value) (num_titles : Z),
      (1 <= num_titles <= 5)%Z ->
      (len (generate_titles model content num_titles) <= num_titles)%Z
      /\ (len (generate_titles model content num_titles) <= 5)%Z)
  /\ (forall (U : Unicode) (model : option summarizer) (req : request)
             (suggestions : list candidate),
      post model req = Success suggestions -> (len suggestions <= 5)%Z).
Proof.
  split.
  - intros U model content n Hn.
    pose proof (generate_titles_length model content n) as H.
    unfold len. lia.
  - intros U model req suggestions H. unfold post in H.
    destruct (validate req) as [[early | [content n]] | e] eqn:E.
    + subst early. unfold validate, bind in E.
      destruct (py_strip _); [| discriminate]. destruct (py_int _); [| discriminate].
      destruct (is_empty _); [discriminate |].
      destruct (_ <? 20)%Z; [discriminate |].
      destruct (5000 <? _)%Z; discriminate.
    + inversion H; subst.
      destruct (validate_engine_call _ E) as [_ [k [_ ->]]].
      pose proof (generate_titles_length model (VStr content) (Z.min k 5)) as Hl.
      unfold len. lia.
    + discriminate.
Qed.

Lemma generate_titles_at_most_num_titles_3 :
  (len (generate_titles (U := Ascii7.tables) None
          (VStr (lit "A sufficiently long piece of content about clouds and servers."))
          3) <= 3)%Z
  /\ (len (generate_titles (U := Ascii7.tables) None
          (VStr (lit "A sufficiently long piece of content about clouds and servers."))
          3) <= 5)%Z.
Proof.
  apply (proj1 generate_titles_at_most_num_titles Ascii7.tables None
           (VStr (lit "A sufficiently long piece of content about clouds and servers."))
           3%Z).
  lia.
Defined.

(** ** Loops over [range] *)

(** An invariant indexed by the loop counter holds after the loop. *)
Lemma fold_seq_invariant (A : Type) (f : A -> nat -> A) (Inv : nat -> A -> Prop)
    (bound : nat) :
  (forall i st, (i < bound)%nat -> Inv i st -> Inv (S i) (f st i)) ->
  forall k a st, (a + k <= bound)%nat -> Inv a st ->
    Inv (a + k)%nat (fold_left f (seq a k) st).
Proof.
  intros Hstep. induction k as [| k IH]; intros a st Hb Ha; simpl.
  - rewrite Nat.add_0_r. exact Ha.
  - replace (a + S k)%nat with (S a + k)%nat by lia.
    apply IH; [lia |]. apply Hstep; [lia | exact Ha].
Qed.

Lemma str_eqb_eq (a b : pystr) : str_eqb a b = true <-> a = b.
Proof.
  revert b. induction a as [| x a IH]; intros [| y b]; simpl;
    try (split; [discriminate | discriminate]); [tauto |].
  rewrite andb_true_iff, N.eqb_eq, IH. split.
  - intros [-> ->]. reflexivity.
  - intros H. inversion H. auto.
Qed.

Lemma str_in_In (x : pystr) (l : list pystr) : str_in x l = true <-> In x l.
Proof.
  unfold str_in. rewrite existsb_exists. split.
  - intros [y [Hy E]]. apply str_eqb_eq in E. subst. exact Hy.
  - intros H. exists x. split; [exact H | apply str_eqb_eq; reflexivity].
Qed.

Lemma firstn_succ (A : Type) (l : list A) (i : nat) (x : A) :
  nth_error l i = Some x -> firstn (S i) l = firstn i l ++ [x].
Proof.
  revert i. induction l as [| y l IH]; intros [| i] H; simpl in *;
    try discriminate.
  - inversion H. reflexivity.
  - rewrite (IH _ H). reflexivity.
Qed.

(** ** The rule-based tier, index by index *)

Section RuleBased.
Context {U : Unicode}.

Lemma rule_step_invariant (phrases : list pystr) (i : nat) st :
  (i < length phrases)%nat ->
  rule_invariant phrases i st -> rule_invariant phrases (S i) (rule_step phrases st i).
Proof.
  intros Hi [Htitles Hused]. destruct st as [titles used].
  cbn [fst snd] in Htitles, Hused.
  destruct (nth_error phrases i) as [phrase |] eqn:E;
    [| apply nth_error_None in E; lia].
  assert (Hnth : nth i phrases [] = phrase) by (apply nth_error_nth; exact E).
  assert (Hsame : str_in phrase used = str_in phrase (firstn i phrases)).
  { apply eq_true_iff_eq. rewrite !str_in_In. apply Hused. }
  unfold rule_step, rule_invariant. rewrite E, seq_S, filter_app, map_app.
  rewrite (firstn_succ _ _ E). cbn [filter Nat.add].
  unfold first_occurrence at 2. rewrite Hnth, <- Hsame.
  destruct (str_in phrase used) eqn:Ein; cbn [negb fst snd map].
  - split; [rewrite app_nil_r; exact Htitles |].
    intros x. rewrite in_app_iff, <- Hused. simpl. split; [auto |].
    intros [H | [<- | []]]; [exact H | apply str_in_In; exact Ein].
  - split.
    + rewrite Htitles. unfold rule_candidate. rewrite Hnth. reflexivity.
    + intros x. rewrite in_app_iff, <- Hused. simpl. tauto.
Qed.

Lemma rule_based_titles_spec (content : pystr) (num_titles : Z) :
  let phrases := key_phrases (split_ws content) in
  _rule_based_titles content num_titles
  = map (rule_candidate phrases)
      (filter (first_occurrence phrases)
         (seq 0 (Z.to_nat (Z.min num_titles (len phrases))))).
Proof.
  intros phrases. unfold _rule_based_titles. fold phrases.
  set (k := Z.to_nat (Z.min num_titles (len phrases))).
  assert (Hk : (0 + k <= length phrases)%nat) by (unfold k, len; lia).
  pose proof (@fold_seq_invariant _ (rule_step phrases) (rule_invariant phrases)
                (length phrases) (@rule_step_invariant phrases) k 0%nat ([], []) Hk)
    as H.
  destruct H as [H _]; [split; [reflexivity | simpl; tauto] |].
  exact H.
Qed.

End RuleBased.

(** C8 as stated fails.  With the key phrases [Data Data], [Data Data],
    [Data Science] the second iteration is skipped, and the candidate at
    position 1 comes from iteration 2: third template, confidence 0.5,
    where the claim has the second template and 0.6; position 2 does not
    exist.  (With nine distinct phrases and nine titles asked for, the
    last confidence is -0.1.) *)
Lemma rule_based_titles_not_by_position :
  key_phrases (U := Ascii7.tables) (split_ws (lit "data data data science"))
    = [lit "Data Data"; lit "Data Data"; lit "Data Science"]
  /\ _rule_based_titles (U := Ascii7.tables) (lit "data data data science") 3
    = [ {| title := lit "Understanding Data Data";
           confidence := 70; method := rule_based |};
        {| title := lit "Everything You Need to Know About Data Science";
           confidence := 50; method := rule_based |} ]
  /\ rule_candidate_claimed
       [lit "Data Data"; lit "Data Data"; lit "Data Science"] 1
    = {| title := lit "A Complete Guide to Data Science";
         confidence := 60; method := rule_based |}
  /\ ~ (forall (content : pystr) (num_titles : Z) (i : nat),
          let phrases := key_phrases (U := Ascii7.tables) (split_ws content) in
          (Z.of_nat i < Z.min num_titles (len phrases))%Z ->
          nth_error (_rule_based_titles (U := Ascii7.tables) content num_titles) i
          = Some (rule_candidate_claimed phrases i))
  /\ map confidence
       (_rule_based_titles (U := Ascii7.tables)
          (lit "alpha beta gamma delta epsilon zeta eta theta iota kappa") 9)
    = [70; 60; 50; 40; 30; 20; 10; 0; -10]%Z.
Proof.
  split; [vm_compute; reflexivity |]. split; [vm_compute; reflexivity |].
  split; [vm_compute; reflexivity |]. split; [| vm_compute; reflexivity].
  intros H. specialize (H (lit "data data data science") 3%Z 1%nat).
  cbv zeta in H.
  assert (Hlt : (Z.of_nat 1 < Z.min 3 (len (key_phrases (U := Ascii7.tables)
                   (split_ws (lit "data data data science")))))%Z)
    by (vm_compute; reflexivity).
  specialize (H Hlt). revert H. vm_compute. discriminate.
Qed.

(** C8, as the code has it.  The tier runs through the indices [i] below
    [min(num_titles, phrase_count)]; an index whose phrase already came at
    a smaller index emits nothing; every other index emits, in order, the
    [i]-th template (cycled) filled with the [i]-th key phrase, with
    confidence [0.7 - 0.1 * i], which is [max(0.7 - 0.1 * i, 0)] up to
    [i = 6]. *)
Theorem rule_based_titles_by_index (U : Unicode) (content : pystr) (num_titles : Z) :
  let phrases := key_phrases (split_ws content) in
  _rule_based_titles content num_titles
  = map (rule_candidate phrases)
      (filter (first_occurrence phrases)
         (seq 0 (Z.to_nat (Z.min num_titles (len phrases)))))
  /\ forall i : nat,
       (i <= 6)%nat ->
       confidence (rule_candidate phrases i) = Z.max (70 - Z.of_nat i * 10) 0.
Proof.
  intros phrases. split; [apply rule_based_titles_spec |].
  intros i Hi. unfold rule_candidate. cbn [confidence]. lia.
Qed.

Lemma rule_based_titles_by_index_data_science :
  confidence
    (rule_candidate
       (key_phrases (U := Ascii7.tables) (split_ws (lit "data data data science"))) 2)
  = Z.max (70 - Z.of_nat 2 * 10) 0.
Proof.
  apply (proj2 (@rule_based_titles_by_index Ascii7.tables
                  (lit "data data data science") 3%Z) 2%nat).
  lia.
Defined.

(** ** The top-up loop *)

Section TopUp.
Context {U : Unicode}.

(** More fuel than the missing titles changes nothing: the loop has ended. *)
Lemma top_up_fuel (cleaned : pystr) (n : Z) (fuel : nat) :
  forall (extra : nat) (titles : list candidate),
    (n - len titles <= Z.of_nat fuel)%Z ->
    top_up (fuel + extra) cleaned n titles = top_up fuel cleaned n titles.
Proof.
  induction fuel as [| fuel IH]; intros extra titles H.
  - simpl. destruct extra; [reflexivity |]. simpl.
    destruct (Z.ltb_spec (len titles) n); [lia | reflexivity].
  - simpl. destruct (Z.ltb_spec (len titles) n); [| reflexivity].
    destruct (negb _); [| reflexivity].
    apply IH. rewrite len_app. change (len [_]) with 1%Z. lia.
Qed.

(** The membership test of the loop never finds the dict among the
    strings, so the loop only ends when the list is full. *)
Lemma top_up_full (cleaned : pystr) (n : Z) (fuel : nat) :
  forall titles : list candidate,
    (n - len titles <= Z.of_nat fuel)%Z ->
    (n <= len (top_up fuel cleaned n titles))%Z.
Proof.
  induction fuel as [| fuel IH]; intros titles H; simpl.
  - lia.
  - destruct (Z.ltb_spec (len titles) n); [| lia].
    replace (dict_in _ _) with false.
    + apply IH. rewrite len_app. change (len [_]) with 1%Z. lia.
    + unfold dict_in. induction (titles_of titles); simpl; auto.
Qed.

End TopUp.

(** ** The model unavailable *)

(** C3 as stated fails.  Eleven one-letter words give no key phrase longer than
    6 characters: the rule-based tier yields nothing and [generate_titles]
    returns the empty list, where a top-up would have added three
    smart-fallback titles. *)
Lemma generate_titles_unavailable_no_top_up :
  clean_content (U := Ascii7.tables) (VStr (lit "a b c d e f g h i j k"))
    = Ok (lit "a b c d e f g h i j k")
  /\ len (split_ws (lit "a b c d e f g h i j k")) = 11%Z
  /\ generate_titles (U := Ascii7.tables) None (VStr (lit "a b c d e f g h i j k")) 3 = []
  /\ generate_titles_topped_up (U := Ascii7.tables) (lit "a b c d e f g h i j k") 3
    = [ {| title := lit "Blog Post #1"; confidence := 60; method := smart_fallback |};
        {| title := lit "Blog Post #2"; confidence := 60; method := smart_fallback |};
        {| title := lit "Blog Post #3"; confidence := 60; method := smart_fallback |} ]
  /\ ~ (forall (raw cleaned : pystr) (num_titles : Z),
          clean_content (U := Ascii7.tables) (VStr raw) = Ok cleaned ->
          (10 <= len (split_ws cleaned))%Z ->
          generate_titles (U := Ascii7.tables) None (VStr raw) num_titles
          = generate_titles_topped_up (U := Ascii7.tables) cleaned num_titles).
Proof.
  repeat (split; [vm_compute; reflexivity |]).
  intros H.
  specialize (H (lit "a b c d e f g h i j k") (lit "a b c d e f g h i j k") 3%Z).
  assert (H1 : clean_content (U := Ascii7.tables) (VStr (lit "a b c d e f g h i j k"))
               = Ok (lit "a b c d e f g h i j k")) by (vm_compute; reflexivity).
  assert (H2 : (10 <= len (split_ws (lit "a b c d e f g h i j k")))%Z)
    by (vm_compute; discriminate).
  specialize (H H1 H2). revert H. vm_compute. discriminate.
Qed.

(** C3, as the code has it.  With the model unavailable and at least 10
    words of cleaned content, [generate_titles] returns what the rule-based
    tier returns, all of it of method [rule_based]: nothing is topped up,
    and fewer candidates than asked for stay fewer. *)
Theorem generate_titles_unavailable_rule_based (U : Unicode)
    (raw cleaned : pystr) (num_titles : Z) :
  clean_content (VStr raw) = Ok cleaned ->
  (10 <= len (split_ws cleaned))%Z ->
  generate_titles None (VStr raw) num_titles = _rule_based_titles cleaned num_titles
  /\ Forall (fun c => method c = rule_based)
       (generate_titles None (VStr raw) num_titles).
Proof.
  intros Hclean Hwords.
  assert (E : generate_titles None (VStr raw) num_titles
              = _rule_based_titles cleaned num_titles).
  { unfold generate_titles, generate_titles_try, bind. rewrite Hclean.
    destruct (Z.ltb_spec (len (split_ws cleaned)) 10); [lia | reflexivity]. }
  split; [exact E |]. rewrite E.
  pose proof (rule_based_titles_spec cleaned num_titles) as Hspec.
  cbv zeta in Hspec. rewrite Hspec.
  apply Forall_map. apply Forall_forall. reflexivity.
Qed.

Lemma generate_titles_unavailable_rule_based_clouds :
  generate_titles (U := Ascii7.tables) None
    (VStr (lit "A sufficiently long piece of content about clouds and servers.")) 3
  = _rule_based_titles (U := Ascii7.tables)
      (lit "A sufficiently long piece of content about clouds and servers.") 3
  /\ Forall (fun c => method c = rule_based)
       (generate_titles (U := Ascii7.tables) None
          (VStr (lit "A sufficiently long piece of content about clouds and servers."))
          3).
Proof.
  apply (@generate_titles_unavailable_rule_based Ascii7.tables
           (lit "A sufficiently long piece of content about clouds and servers.")
           (lit "A sufficiently long piece of content about clouds and servers.")
           3%Z).
  - vm_compute. reflexivity.
  - vm_compute. discriminate.
Defined.

(** ** Duplicates *)

(** C6.  The model answers every attempt with
    ["the impact of microservices architecture"]; the first answer is
    accepted and the later ones are rejected as duplicates.  The top-up
    loop, whose membership test compares a dict with strings, then appends
    the smart-fallback titles of index 1, 2 and 3, and the one of index 3
    is the accepted title again: two candidates with one title. *)
Theorem generate_titles_duplicate_title :
  generate_titles (U := Ascii7.tables)
    (Some (constant_model impact_headline))
    (VStr services_content) 4
  = [ {| title := lit "The Impact of Microservices Architecture";
         confidence := 90; method := ai |};
      {| title := lit "Understanding Microservices Architecture";
         confidence := 60; method := smart_fallback |};
      {| title := lit "A Deep Dive into Microservices Architecture";
         confidence := 60; method := smart_fallback |};
      {| title := lit "The Impact of Microservices Architecture";
         confidence := 60; method := smart_fallback |} ]
  /\ ~ NoDup (titles_of
        (generate_titles (U := Ascii7.tables)
           (Some (constant_model impact_headline))
           (VStr services_content) 4)).
Proof.
  assert (E : generate_titles (U := Ascii7.tables)
    (Some (constant_model impact_headline))
    (VStr services_content) 4
  = [ {| title := lit "The Impact of Microservices Architecture";
         confidence := 90; method := ai |};
      {| title := lit "Understanding Microservices Architecture";
         confidence := 60; method := smart_fallback |};
      {| title := lit "A Deep Dive into Microservices Architecture";
         confidence := 60; method := smart_fallback |};
      {| title := lit "The Impact of Microservices Architecture";
         confidence := 60; method := smart_fallback |} ])
    by (vm_compute; reflexivity).
  split; [exact E |]. rewrite E. intros H. inversion H as [| x l Hin _]; subst.
  apply Hin. right. right. left. reflexivity.
Qed.

(** ** Confidence *)

Section SortedFacts.

Variables (A : Type) (R : A -> A -> Prop).

Lemma StronglySorted_snoc (l : list A) (x : A) :
  StronglySorted R l -> Forall (fun y => R y x) l -> StronglySorted R (l ++ [x]).
Proof.
  induction 1 as [| y l Hl IH Hy]; intros Hx; simpl.
  - constructor; constructor.
  - inversion Hx; subst. constructor; [auto |].
    apply Forall_app. split; [exact Hy | constructor; auto].
Qed.

Lemma Forall_sublist_firstn (P : A -> Prop) (n : nat) (l : list A) :
  Forall P l -> Forall P (firstn n l).
Proof.
  intros H. revert n. induction H as [| x l Hx _ IH]; intros [| n]; simpl;
    constructor; auto.
Qed.

Lemma StronglySorted_firstn (n : nat) (l : list A) :
  StronglySorted R l -> StronglySorted R (firstn n l).
Proof.
  intros H. revert n. induction H as [| x l _ IH Hx]; intros [| n]; simpl;
    constructor; auto using Forall_sublist_firstn.
Qed.

Lemma Forall_sublist_filter (P : A -> Prop) (p : A -> bool) (l : list A) :
  Forall P l -> Forall P (filter p l).
Proof.
  induction 1 as [| x l Hx _ IH]; simpl; [constructor |].
  destruct (p x); [constructor |]; auto.
Qed.

Lemma StronglySorted_filter (p : A -> bool) (l : list A) :
  StronglySorted R l -> StronglySorted R (filter p l).
Proof.
  induction 1 as [| x l _ IH Hx]; simpl; [constructor |].
  destruct (p x); [constructor |]; auto using Forall_sublist_filter.
Qed.

End SortedFacts.

Lemma StronglySorted_seq (a k : nat) : StronglySorted lt (seq a k).
Proof.
  revert a. induction k as [| k IH]; intros a; simpl; constructor; [apply IH |].
  apply Forall_forall. intros x Hx. apply in_seq in Hx. lia.
Qed.

Lemma graded_firstn (lo : Z) (n : nat) (titles : list candidate) :
  graded lo titles -> graded lo (firstn n titles).
Proof.
  intros [H1 H2]. split;
    auto using StronglySorted_firstn, Forall_sublist_firstn.
Qed.

Lemma graded_slice_to (lo : Z) (n : Z) (titles : list candidate) :
  graded lo titles -> graded lo (slice_to n titles).
Proof.
  intros H. unfold slice_to. destruct (n <? 0)%Z; apply graded_firstn, H.
Qed.

Lemma graded_weaken (lo lo' : Z) (titles : list candidate) :
  (lo' <= lo)%Z -> graded lo titles -> graded lo' titles.
Proof.
  intros Hle [H1 H2]. split; [exact H1 |].
  eapply Forall_impl; [| exact H2]. simpl. intros c [Hc Ht]. split; [lia | exact Ht].
Qed.

(** A candidate whose confidence is the floor of the list may be appended. *)
Lemma graded_snoc (lo : Z) (titles : list candidate) (c : candidate) :
  graded lo titles -> confidence c = lo -> tier_confidence c ->
  graded lo (titles ++ [c]).
Proof.
  intros [H1 H2] Hc Ht. split.
  - apply StronglySorted_snoc; [exact H1 |].
    eapply Forall_impl; [| exact H2]. unfold by_confidence.
    intros d [Hd _]. lia.
  - apply Forall_app. split; [exact H2 |].
    constructor; [| constructor]. split; [lia | exact Ht].
Qed.

Section ConfidenceFacts.
Context {U : Unicode}.

Lemma constant_confidence_sorted (v : Z) (titles : list candidate) :
  Forall (fun c => confidence c = v) titles ->
  StronglySorted by_confidence titles.
Proof.
  induction 1 as [| c l Hc Hl IH]; constructor; [exact IH |].
  eapply Forall_impl; [| exact Hl]. unfold by_confidence. intros d Hd. lia.
Qed.

Lemma fallback_titles_graded (content : value) (n : Z) :
  graded 40 (_fallback_titles content n).
Proof.
  unfold _fallback_titles. split.
  - apply (@constant_confidence_sorted 40). apply Forall_map, Forall_forall.
    reflexivity.
  - apply Forall_map, Forall_forall. intros i _.
    unfold tier_confidence. cbn [basic_title method confidence]. lia.
Qed.

Lemma rule_candidates_sorted (phrases : list pystr) (l : list nat) :
  StronglySorted lt l ->
  StronglySorted by_confidence (map (rule_candidate phrases) l).
Proof.
  induction 1 as [| i l _ IH Hi]; simpl; constructor; [exact IH |].
  apply Forall_map. eapply Forall_impl; [| exact Hi].
  unfold by_confidence, rule_candidate. cbn [confidence]. intros j Hj. lia.
Qed.

Lemma rule_based_titles_sorted (content : pystr) (n : Z) :
  StronglySorted by_confidence (_rule_based_titles content n)
  /\ Forall tier_confidence (_rule_based_titles content n).
Proof.
  pose proof (rule_based_titles_spec content n) as E. cbv zeta in E. rewrite E.
  split.
  - apply rule_candidates_sorted, StronglySorted_filter, StronglySorted_seq.
  - apply Forall_map, Forall_forall. intros i _.
    unfold tier_confidence, rule_candidate. cbn [method confidence]. lia.
Qed.

(** Before attempt [i] the accepted candidates are ordered, and none is
    below the confidence attempt [i] would get. *)
Lemma ai_attempt_graded (summarize : summarizer) (cleaned : pystr) (i : nat)
    (titles : list candidate) :
  graded (Z.max (90 - Z.of_nat i * 10) 60) titles ->
  graded (Z.max (90 - Z.of_nat (S i) * 10) 60)
    (ai_attempt summarize cleaned titles i).
Proof.
  intros H.
  assert (Hnext : graded (Z.max (90 - Z.of_nat (S i) * 10) 60) titles)
    by (eapply graded_weaken; [| exact H]; lia).
  unfold ai_attempt.
  destruct (summarize _ i) as [| [| summary_text rest]]; try exact Hnext.
  destruct (_ && _); [| exact Hnext].
  eapply graded_weaken;
    [| apply graded_snoc; [exact H | reflexivity |]].
  - lia.
  - unfold tier_confidence. cbn [method confidence]. lia.
Qed.

Lemma ai_loop_graded (summarize : summarizer) (cleaned : pystr) (k : nat) :
  graded 60 (fold_left (ai_attempt summarize cleaned) (seq 0 k) []).
Proof.
  pose proof (@fold_seq_invariant _ (ai_attempt summarize cleaned)
                (fun i titles => graded (Z.max (90 - Z.of_nat i * 10) 60) titles)
                k) as H.
  specialize (H (fun i st _ Hst => @ai_attempt_graded summarize cleaned i st Hst)
                k 0%nat [] (Nat.le_refl _)).
  simpl in H. eapply graded_weaken; [| apply H; split; constructor]. lia.
Qed.

Lemma top_up_graded (cleaned : pystr) (n : Z) (fuel : nat) :
  forall titles, graded 60 titles -> graded 60 (top_up fuel cleaned n titles).
Proof.
  induction fuel as [| fuel IH]; intros titles H; simpl; [exact H |].
  destruct (len titles <? n)%Z; [| exact H].
  destruct (negb _); [| exact H].
  apply IH. apply graded_snoc; [exact H | reflexivity | reflexivity].
Qed.

Lemma generate_titles_graded (model : option summarizer) (content : value) (n : Z) :
  StronglySorted by_confidence (generate_titles model content n)
  /\ Forall tier_confidence (generate_titles model content n).
Proof.
  assert (Hg : forall lo l, graded lo l ->
                 StronglySorted by_confidence l /\ Forall tier_confidence l).
  { intros lo l [H1 H2]. split; [exact H1 |].
    eapply Forall_impl; [| exact H2]. simpl. tauto. }
  unfold generate_titles, generate_titles_try, bind.
  destruct (clean_content content) as [cleaned | e].
  - destruct (len (split_ws cleaned) <? 10)%Z.
    + eapply Hg, fallback_titles_graded.
    + destruct model as [summarize |].
      * eapply Hg, graded_slice_to, top_up_graded, ai_loop_graded.
      * apply rule_based_titles_sorted.
  - eapply Hg, fallback_titles_graded.
Qed.

End ConfidenceFacts.

(** C7 as stated fails.  The fourth attempt is the first to succeed: its
    candidate has the floor confidence 0.6, the same as the smart-fallback
    candidates that fill the response, so the AI candidate is not strictly
    above them.  (Tier against tier it fails as well: the rule-based tier
    gives 0.7 down to 0.3, above that AI candidate and below the basic
    fallback's 0.4.) *)
Lemma generate_titles_not_strictly_tiered :
  generate_titles (U := Ascii7.tables)
    (Some (late_model bread_headline)) (VStr cloud_content) 5
  = [ {| title := lit "Why Cloud Servers are the Best Thing Since Sliced Bread";
         confidence := 60; method := ai |};
      {| title := lit "Understanding Cloud Servers";
         confidence := 60; method := smart_fallback |};
      {| title := lit "A Deep Dive into Cloud Servers";
         confidence := 60; method := smart_fallback |};
      {| title := lit "The Impact of Cloud Servers";
         confidence := 60; method := smart_fallback |};
      {| title := lit "Exploring Cloud Servers";
         confidence := 60; method := smart_fallback |} ]
  /\ ~ strictly_tiered
         (generate_titles (U := Ascii7.tables)
            (Some (late_model bread_headline))
            (VStr cloud_content) 5)
  /\ map confidence
       (generate_titles (U := Ascii7.tables) None (VStr cloud_content) 5)
     = [70; 60; 50; 40; 30]%Z.
Proof.
  split; [vm_compute; reflexivity |]. split; [| vm_compute; reflexivity].
  intros H.
  specialize (H {| title := lit "Why Cloud Servers are the Best Thing Since Sliced Bread";
                   confidence := 60; method := ai |}
                {| title := lit "Understanding Cloud Servers";
                   confidence := 60; method := smart_fallback |}).
  cbn [method confidence tier_rank] in H.
  assert (Hlt : (60 < 60)%Z); [| lia].
  apply H; [vm_compute; auto | vm_compute; auto | lia].
Qed.

(** C7, as the code has it.  In every response the confidence never rises
    from one candidate to the next, so not within the AI phase either; an
    AI candidate has between 0.6 and 0.9 and is at least, not strictly
    above, a smart-fallback candidate of the same response; smart fallback
    is 0.6 and basic fallback is 0.4; a rule-based candidate has at most
    0.7 and no fixed place among the other tiers. *)
Theorem generate_titles_confidence_order (U : Unicode) (model : option summarizer)
    (content : value) (num_titles : Z) :
  let r := generate_titles model content num_titles in
  StronglySorted by_confidence r
  /\ (forall a b, In a r -> In b r ->
        method a = ai -> method b = smart_fallback ->
        (confidence b <= confidence a)%Z)
  /\ (forall c, In c r -> method c = ai -> (60 <= confidence c <= 90)%Z)
  /\ (forall c, In c r -> method c = rule_based -> (confidence c <= 70)%Z)
  /\ (forall c, In c r -> method c = smart_fallback -> confidence c = 60%Z)
  /\ (forall c, In c r -> method c = basic_fallback -> confidence c = 40%Z).
Proof.
  intros r. destruct (generate_titles_graded model content num_titles) as [Hs Ht].
  fold r in Hs, Ht. rewrite Forall_forall in Ht.
  assert (Htier : forall c, In c r -> tier_confidence c) by exact Ht.
  unfold tier_confidence in Htier.
  split; [exact Hs |]. split.
  - intros a b Ha Hb Ma Mb.
    pose proof (Htier a Ha) as Ta. pose proof (Htier b Hb) as Tb.
    rewrite Ma in Ta. rewrite Mb in Tb. lia.
  - split; [| split; [| split]]; intros c Hc Mc; pose proof (Htier c Hc) as Tc;
      rewrite Mc in Tc; lia.
Qed.

Lemma generate_titles_confidence_order_late :
  (confidence {| title := lit "Understanding Cloud Servers";
                 confidence := 60; method := smart_fallback |}
   <= confidence {| title := lit "Why Cloud Servers are the Best Thing Since Sliced Bread";
                    confidence := 60; method := ai |})%Z.
Proof.
  apply (proj1 (proj2 (@generate_titles_confidence_order Ascii7.tables
                         (Some (late_model bread_headline))
                         (VStr cloud_content) 5%Z))
           {| title := lit "Why Cloud Servers are the Best Thing Since Sliced Bread";
              confidence := 60; method := ai |}
           {| title := lit "Understanding Cloud Servers";
              confidence := 60; method := smart_fallback |}).
  - vm_compute. auto.
  - vm_compute. auto.
  - reflexivity.
  - reflexivity.
Defined.

(** * Further properties *)

(** ** The engine at its edges *)

Section EngineEdges.
Context {U : Unicode}.

Lemma fallback_titles_any_content (v w : value) (n : Z) :
  _fallback_titles v n = _fallback_titles w n.
Proof. reflexivity. Qed.

Lemma dict_in_false (d : candidate) (l : list pystr) : dict_in d l = false.
Proof. unfold dict_in. induction l; simpl; auto. Qed.

(** The top-up loop appends the smart-fallback titles of the indices that
    follow the candidates it starts from. *)
Lemma top_up_spec (cleaned : pystr) (n : Z) (fuel : nat) :
  forall titles,
    top_up fuel cleaned n titles
    = titles ++ map (_create_smart_fallback_title cleaned)
                  (seq (length titles)
                     (Nat.min fuel (Z.to_nat (n - len titles)))).
Proof.
  induction fuel as [| fuel IH]; intros titles.
  - simpl. rewrite app_nil_r. reflexivity.
  - cbn [top_up]. destruct (Z.ltb_spec (len titles) n) as [Hlt | Hge].
    + rewrite dict_in_false. cbn [negb]. rewrite IH, <- app_assoc.
      rewrite len_app, length_app. change (len [_]) with 1%Z.
      cbn [length]. unfold len in *.
      replace (Z.to_nat (n - Z.of_nat (length titles)))
        with (S (Z.to_nat (n - (Z.of_nat (length titles) + 1)))) by lia.
      rewrite <- Nat.succ_min_distr. cbn [seq map app].
      replace (length titles + 1)%nat with (S (length titles)) by lia.
      reflexivity.
    + replace (Z.to_nat (n - len titles)) with 0%nat by lia.
      rewrite Nat.min_0_r. simpl. rewrite app_nil_r. reflexivity.
Qed.

Lemma ai_attempt_length (summarize : summarizer) (cleaned : pystr)
    (titles : list candidate) (i : nat) :
  (length (ai_attempt summarize cleaned titles i) <= S (length titles))%nat.
Proof.
  unfold ai_attempt. destruct (summarize _ i) as [| [| t r]]; try lia.
  destruct (_ && _); [rewrite length_app; simpl; lia | lia].
Qed.

Lemma fold_ai_attempt_length (summarize : summarizer) (cleaned : pystr)
    (l : list nat) :
  forall titles,
    (length (fold_left (ai_attempt summarize cleaned) l titles)
     <= length titles + length l)%nat.
Proof.
  induction l as [| i r IH]; intros titles; simpl; [lia |].
  specialize (IH (ai_attempt summarize cleaned titles i)).
  pose proof (ai_attempt_length summarize cleaned titles i). lia.
Qed.

Lemma ai_phase_length (summarize : summarizer) (cleaned : pystr) (n : Z) :
  (length (ai_phase summarize cleaned n) <= Z.to_nat (Z.min n 5))%nat.
Proof.
  unfold ai_phase.
  pose proof (fold_ai_attempt_length summarize cleaned
                (seq 0 (Z.to_nat (Z.min n 5))) []) as H.
  rewrite length_seq in H. simpl in H. exact H.
Qed.

Lemma NoDup_snoc (A : Type) (l : list A) (x : A) :
  NoDup l -> ~ In x l -> NoDup (l ++ [x]).
Proof.
  intros Hl Hx. apply NoDup_app; [exact Hl | repeat constructor; auto |].
  intros y Hy [<- | []]. auto.
Qed.

Lemma ai_attempt_accepted (summarize : summarizer) (cleaned : pystr)
    (titles : list candidate) (i : nat) :
  accepted_ok titles -> accepted_ok (ai_attempt summarize cleaned titles i).
Proof.
  intros [Hall Hnd]. unfold ai_attempt.
  destruct (summarize _ i) as [| [| t r]]; try (split; assumption).
  destruct (negb (is_empty _) && _ && _) eqn:E; [| split; assumption].
  apply andb_true_iff in E. destruct E as [E Hnew].
  apply andb_true_iff in E. destruct E as [_ Hwords].
  apply Z.leb_le in Hwords. split.
  - apply Forall_app. split; [exact Hall |]. repeat constructor. exact Hwords.
  - unfold titles_of. rewrite map_app. apply NoDup_snoc; [exact Hnd |].
    intros Hin. apply str_in_In in Hin. unfold titles_of in Hnew.
    cbn [title] in Hin. rewrite Hin in Hnew. discriminate.
Qed.

Lemma ai_phase_accepted (summarize : summarizer) (cleaned : pystr) (n : Z) :
  accepted_ok (ai_phase summarize cleaned n).
Proof.
  unfold ai_phase. generalize (seq 0 (Z.to_nat (Z.min n 5))) as l.
  assert (H : accepted_ok []) by (split; constructor).
  revert H. generalize (@nil candidate) as titles.
  intros titles H l. revert titles H.
  induction l as [| i r IH]; intros titles H; simpl; [exact H |].
  apply IH, ai_attempt_accepted, H.
Qed.

End EngineEdges.

(** X1.  Content that is no non-empty string ([None], [""], a number, a
    list) never reaches a tier that reads it: the cleaner returns [""] or
    raises, and either way the answer is the basic fallback, one title per
    requested title. *)
Theorem generate_titles_not_a_text (U : Unicode) (model : option summarizer)
    (content : value) (num_titles : Z) :
  (forall s, content = VStr s -> s = []) ->
  generate_titles model content num_titles = _fallback_titles content num_titles
  /\ length (generate_titles model content num_titles) = Z.to_nat num_titles.
Proof.
  intros H.
  assert (E : generate_titles model content num_titles
              = _fallback_titles content num_titles).
  { unfold generate_titles, generate_titles_try, clean_content, bind.
    destruct content as [| b | z | num den | s | b]; simpl.
    - reflexivity.
    - destruct b; reflexivity.
    - destruct (z =? 0)%Z; reflexivity.
    - destruct (num =? 0)%Z; reflexivity.
    - rewrite (H s eq_refl). reflexivity.
    - destruct b; reflexivity. }
  split; [exact E |]. rewrite E. apply fallback_titles_length.
Qed.

Lemma generate_titles_not_a_text_number :
  generate_titles (U := Ascii7.tables) None (VInt 5) 2
    = _fallback_titles (VInt 5) 2
  /\ length (generate_titles (U := Ascii7.tables) None (VInt 5) 2) = Z.to_nat 2.
Proof.
  apply (@generate_titles_not_a_text Ascii7.tables None (VInt 5) 2%Z).
  intros s H. discriminate H.
Defined.

(** X2.  With a model loaded the answer always has exactly as many
    candidates as were asked for (none for a negative number), however many
    attempts fail or are rejected: the top-up loop fills every gap. *)
Theorem generate_titles_full_with_model (U : Unicode) (summarize : summarizer)
    (content : value) (num_titles : Z) :
  length (generate_titles (Some summarize) content num_titles)
  = Z.to_nat num_titles.
Proof.
  unfold generate_titles, generate_titles_try, bind.
  destruct (clean_content content) as [cleaned | e];
    [| apply fallback_titles_length].
  destruct (len (split_ws cleaned) <? 10)%Z; [apply fallback_titles_length |].
  destruct (Z.le_gt_cases num_titles 0) as [Hn | Hn].
  - rewrite ai_path_nothing_asked by exact Hn. simpl. lia.
  - unfold slice_to. destruct (Z.ltb_spec num_titles 0); [lia |].
    rewrite length_firstn.
    pose proof (@top_up_full U cleaned num_titles (Z.to_nat num_titles)
                  (fold_left (ai_attempt summarize cleaned)
                     (seq 0 (Z.to_nat (Z.min num_titles 5))) [])) as Hfull.
    unfold len in Hfull. lia.
Qed.

(** X3.  With no model loaded a response is of one kind: all basic
    fallback or all rule-based, never an [ai] or a [smart_fallback]
    candidate. *)
Theorem generate_titles_unavailable_methods (U : Unicode) (content : value)
    (num_titles : Z) :
  Forall (fun c => method c = basic_fallback)
    (generate_titles None content num_titles)
  \/ Forall (fun c => method c = rule_based)
    (generate_titles None content num_titles).
Proof.
  assert (Hbasic : forall v, Forall (fun c => method c = basic_fallback)
                               (_fallback_titles v num_titles)).
  { intros v. unfold _fallback_titles. apply Forall_map, Forall_forall.
    reflexivity. }
  unfold generate_titles, generate_titles_try, bind.
  destruct (clean_content content) as [cleaned | e]; [| left; apply Hbasic].
  destruct (len (split_ws cleaned) <? 10)%Z; [left; apply Hbasic |].
  right. pose proof (rule_based_titles_spec cleaned num_titles) as Hspec.
  cbv zeta in Hspec. rewrite Hspec. apply Forall_map, Forall_forall. reflexivity.
Qed.

(** X4.  With a model loaded and at least ten words of cleaned content, a
    response for [num_titles >= 0] is the accepted AI candidates, in
    attempt order, followed by the smart-fallback titles of the indices
    from their number up to [num_titles - 1].  The AI candidates are at
    most [min(num_titles, 5)], have pairwise different titles and at least
    three words each. *)
Theorem generate_titles_ai_then_smart (U : Unicode) (summarize : summarizer)
    (raw cleaned : pystr) (num_titles : Z) :
  clean_content (VStr raw) = Ok cleaned ->
  (10 <= len (split_ws cleaned))%Z ->
  (0 <= num_titles)%Z ->
  let accepted := ai_phase summarize cleaned num_titles in
  generate_titles (Some summarize) (VStr raw) num_titles
  = accepted
    ++ map (_create_smart_fallback_title cleaned)
         (seq (length accepted) (Z.to_nat num_titles - length accepted))
  /\ (length accepted <= Z.to_nat (Z.min num_titles 5))%nat
  /\ Forall (fun c => method c = ai /\ (3 <= len (split_ws (title c)))%Z) accepted
  /\ NoDup (titles_of accepted).
Proof.
  intros Hclean Hwords Hn accepted.
  pose proof (ai_phase_length summarize cleaned num_titles) as Hlen.
  destruct (ai_phase_accepted summarize cleaned num_titles) as [Hall Hnd].
  fold accepted in Hlen, Hall, Hnd.
  split; [| auto].
  unfold generate_titles, generate_titles_try, bind. rewrite Hclean.
  destruct (Z.ltb_spec (len (split_ws cleaned)) 10); [lia |].
  rewrite top_up_spec. fold (ai_phase summarize cleaned num_titles).
  fold accepted. unfold slice_to. destruct (Z.ltb_spec num_titles 0); [lia |].
  unfold len.
  replace (Nat.min (Z.to_nat num_titles)
             (Z.to_nat (num_titles - Z.of_nat (length accepted))))
    with (Z.to_nat num_titles - length accepted)%nat by lia.
  apply firstn_all2. rewrite length_app, length_map, length_seq. lia.
Qed.

Lemma generate_titles_ai_then_smart_services :
  let accepted :=
    ai_phase (U := Ascii7.tables) (constant_model impact_headline)
      services_content 4 in
  generate_titles (U := Ascii7.tables) (Some (constant_model impact_headline))
    (VStr services_content) 4
  = accepted
    ++ map (_create_smart_fallback_title (U := Ascii7.tables) services_content)
         (seq (length accepted) (Z.to_nat 4 - length accepted))
  /\ (length accepted <= Z.to_nat (Z.min 4 5))%nat
  /\ Forall (fun c => method c = ai /\ (3 <= len (split_ws (title c)))%Z) accepted
  /\ NoDup (titles_of accepted).
Proof.
  apply (@generate_titles_ai_then_smart Ascii7.tables
           (constant_model impact_headline) services_content services_content 4%Z).
  - vm_compute. reflexivity.
  - vm_compute. discriminate.
  - lia.
Defined.

(** ** The cleaner: what is kept and where it is cut *)

Section CleanerCut.
Context {U : Unicode}.

(** The sentences with their periods back are the text and one period. *)
Lemma split_dot_concat (s : pystr) :
  concat (map (fun p => p ++ [DOT]) (split_dot s)) = s ++ [DOT].
Proof.
  unfold split_dot. induction s as [| c r IH]; [reflexivity |].
  cbn [split_by]. destruct (N.eqb_spec DOT c) as [<- | Hc].
  - cbn [map concat app]. rewrite IH. reflexivity.
  - destruct (split_by (N.eqb DOT) r) as [| w ws] eqn:E.
    + exfalso. revert E. apply split_by_nonempty.
    + cbn [map concat app] in *. rewrite IH. reflexivity.
Qed.

Lemma split_dot_no_dot (s w : pystr) :
  In w (split_dot s) -> ~ In DOT w.
Proof.
  intros Hw Hin. pose proof (split_by_pieces _ _ _ Hw) as H.
  rewrite Forall_forall in H. destruct (H _ Hin) as [Hd _].
  rewrite N.eqb_refl in Hd. discriminate.
Qed.

Lemma reassemble_extends (pieces : list pystr) :
  forall acc, exists more, reassemble acc pieces = acc ++ more.
Proof.
  induction pieces as [| p ps IH]; intros acc; cbn [reassemble].
  - exists []. rewrite app_nil_r. reflexivity.
  - destruct (800 <? len (acc ++ p))%Z.
    + exists []. rewrite app_nil_r. reflexivity.
    + destruct (IH (acc ++ p ++ lit ".")) as [more E]. rewrite E.
      exists (p ++ lit "." ++ more). rewrite <- !app_assoc. reflexivity.
Qed.

Lemma reassemble_prefix (pieces : list pystr) :
  forall acc, exists rest,
    acc ++ concat (map (fun p => p ++ [DOT]) pieces)
    = reassemble acc pieces ++ rest.
Proof.
  induction pieces as [| p ps IH]; intros acc; cbn [reassemble map concat].
  - exists []. reflexivity.
  - destruct (800 <? len (acc ++ p))%Z.
    + eexists. reflexivity.
    + destruct (IH (acc ++ p ++ lit ".")) as [rest E]. exists rest.
      rewrite <- E, <- !app_assoc. reflexivity.
Qed.

Lemma reassemble_ends (pieces : list pystr) :
  forall acc,
    (acc = [] \/ exists a, acc = a ++ [DOT]) ->
    reassemble acc pieces = [] \/ exists a, reassemble acc pieces = a ++ [DOT].
Proof.
  induction pieces as [| p ps IH]; intros acc H; cbn [reassemble]; [exact H |].
  destruct (800 <? len (acc ++ p))%Z; [exact H |].
  apply IH. right. exists (acc ++ p). rewrite <- !app_assoc. reflexivity.
Qed.

Lemma app_split_longer (A : Type) (a b c d : list A) :
  a ++ b = c ++ d -> (length a <= length c)%nat ->
  exists l, c = a ++ l /\ b = l ++ d.
Proof.
  revert c. induction a as [| x a IH]; intros c E Hlen.
  - exists c. auto.
  - destruct c as [| y c]; [simpl in Hlen; lia |].
    simpl in E. inversion E; subst.
    destruct (IH c H1) as [l [-> ->]]; [simpl in Hlen; lia |].
    exists l. auto.
Qed.

(** Where a period can stand after a sentence without periods. *)
Lemma sentence_then_period (p l x y : pystr) :
  ~ In DOT p -> p ++ DOT :: x = l ++ DOT :: y ->
  (l = p /\ x = y) \/ exists l2, l = p ++ DOT :: l2 /\ x = l2 ++ DOT :: y.
Proof.
  revert l. induction p as [| c p IH]; intros l Hp E.
  - destruct l as [| d l]; simpl in E.
    + inversion E. auto.
    + inversion E; subst. right. exists l. auto.
  - destruct l as [| d l]; simpl in E.
    + inversion E; subst. exfalso. apply Hp. left. reflexivity.
    + inversion E; subst. destruct (IH l) as [[-> ->] | [l2 [-> ->]]]; auto.
      * intros H. apply Hp. right. exact H.
      * right. exists l2. auto.
Qed.

(** A period with at most 800 characters before it is not cut off. *)
Lemma reassemble_reaches (pieces : list pystr) :
  Forall (fun p => ~ In DOT p) pieces ->
  forall acc before after,
    after <> [] ->
    acc ++ concat (map (fun p => p ++ [DOT]) pieces) = before ++ DOT :: after ->
    (len before <= 800)%Z -> (len acc <= len before)%Z ->
    (len before + 1 <= len (reassemble acc pieces))%Z.
Proof.
  induction 1 as [| p ps Hp _ IH]; intros acc before after Hafter E H800 Hacc.
  - cbn [map concat] in E. rewrite app_nil_r in E. subst acc.
    rewrite len_app in Hacc. unfold len in Hacc. simpl in Hacc. lia.
  - cbn [map concat] in E.
    destruct (app_split_longer _ _ _ _ E) as [l [-> El]];
      [unfold len in Hacc; lia |].
    rewrite <- app_assoc in El. cbn [app] in El.
    cbn [reassemble].
    destruct (sentence_then_period _ _ _ _ Hp El) as [[-> Ex] | [l2 [-> Ex]]].
    + destruct (Z.ltb_spec 800 (len (acc ++ p))); [lia |].
      destruct (reassemble_extends ps (acc ++ p ++ lit ".")) as [more ->].
      rewrite !len_app. change (len (lit ".")) with 1%Z.
      rewrite len_app in *. pose proof (len_nonneg more). lia.
    + assert (Hfit : (len (acc ++ p) <= 800)%Z).
      { rewrite !len_app in *. pose proof (len_nonneg (DOT :: l2)). lia. }
      destruct (Z.ltb_spec 800 (len (acc ++ p))); [lia |].
      apply (IH (acc ++ p ++ lit ".") _ after Hafter).
      * rewrite Ex, <- !app_assoc. reflexivity.
      * exact H800.
      * rewrite !len_app. change (len (lit ".")) with 1%Z.
        change (DOT :: l2) with ([DOT] ++ l2). rewrite !len_app.
        change (len [DOT]) with 1%Z. pose proof (len_nonneg l2). lia.
Qed.

(** Every character of the cleaned text is of the class [[\w\s.,!?-]], and
    its only whitespace is the space. *)
Lemma cleaned_unsplit_chars (raw : pystr) (c : char) :
  In c (cleaned_unsplit raw) ->
  keep_char c = true /\ (isspace c = true -> c = SPACE).
Proof.
  unfold cleaned_unsplit, collapse_ws. intros H. apply filter_In in H.
  destruct H as [H Hk]. split; [exact Hk |].
  apply collapse_from_chars in H. destruct H as [-> | [Hs _]]; [auto |].
  intros Hs'. congruence.
Qed.

Lemma keep_char_DOT : keep_char DOT = true.
Proof. apply keep_char_dash_dot. right. reflexivity. Qed.

Lemma reassemble_chars (pieces : list pystr) (P : char -> Prop) :
  P DOT -> Forall (Forall P) pieces ->
  forall acc, Forall P acc -> Forall P (reassemble acc pieces).
Proof.
  intros Hdot. induction 1 as [| p ps Hp _ IH]; intros acc Hacc; cbn [reassemble];
    [exact Hacc |].
  destruct (800 <? len (acc ++ p))%Z; [exact Hacc |].
  apply IH. apply Forall_app. split; [exact Hacc |].
  apply Forall_app. split; [exact Hp | repeat constructor; exact Hdot].
Qed.

End CleanerCut.

(** X5.  Whatever the input, [clean_content] returns only characters of the
    class [[\w\s.,!?-]], and no whitespace other than the space: no tab or
    newline, no quote, bracket or other symbol survives. *)
Theorem clean_content_alphabet (U : Unicode) (content : value) (cleaned : pystr) :
  clean_content content = Ok cleaned ->
  Forall (fun c => keep_char c = true /\ (isspace c = true -> c = SPACE)) cleaned.
Proof.
  set (P := fun c => keep_char c = true /\ (isspace c = true -> c = SPACE)).
  assert (Hdot : P DOT) by (split; [apply keep_char_DOT | discriminate]).
  unfold clean_content. destruct (negb (truthy content)).
  { intros H. inversion H. constructor. }
  destruct content as [| | | | raw |]; try discriminate.
  intros H. inversion H as [E]. clear H E.
  assert (Hc : Forall P (cleaned_unsplit raw)).
  { apply Forall_forall. intros c Hin. eapply cleaned_unsplit_chars. exact Hin. }
  rewrite clean_text_unfold. cbv zeta.
  destruct (800 <? len (cleaned_unsplit raw))%Z; [| exact Hc].
  destruct (is_empty _).
  - apply Forall_app. split; [apply Forall_sublist_firstn |].
    + apply reassemble_chars; [exact Hdot | | constructor].
      apply Forall_forall. intros w Hw. apply Forall_forall. intros c Hin.
      pose proof (split_by_pieces _ _ _ Hw) as Hp. rewrite Forall_forall in Hp.
      rewrite Forall_forall in Hc. apply Hc. apply (Hp c Hin).
    + repeat (apply Forall_cons; [exact Hdot |]). apply Forall_nil.
  - apply reassemble_chars; [exact Hdot | | constructor].
    apply Forall_forall. intros w Hw. apply Forall_forall. intros c Hin.
    pose proof (split_by_pieces _ _ _ Hw) as Hp. rewrite Forall_forall in Hp.
    rewrite Forall_forall in Hc. apply Hc. apply (Hp c Hin).
Qed.

Lemma clean_content_alphabet_quotes :
  Forall (fun c => keep_char (U := Ascii7.tables) c = true
                   /\ (isspace c = true -> c = SPACE))
    (lit "He said its fine  really").
Proof.
  apply (@clean_content_alphabet Ascii7.tables
           (VStr (lit "He said: (it's)   fine & really  "))
           (lit "He said its fine  really")).
  vm_compute. reflexivity.
Defined.

(** X6.  When the cleaned text is longer than 800 characters and its first
    sentence is not, the result is the cleaned text cut right after a
    period: the last period that has at most 800 characters before it.
    Nothing is reworded and nothing is appended. *)
Theorem clean_content_cut_at_last_period (U : Unicode) (raw : pystr) :
  (800 < len (cleaned_unsplit raw))%Z ->
  (len (hd [] (split_dot (cleaned_unsplit raw))) <= 800)%Z ->
  exists kept rest,
    clean_content (VStr raw) = Ok (kept ++ [DOT])
    /\ cleaned_unsplit raw = kept ++ [DOT] ++ rest
    /\ (len kept <= 800)%Z
    /\ forall before after,
         cleaned_unsplit raw = before ++ [DOT] ++ after ->
         (len before <= 800)%Z -> (len before <= len kept)%Z.
Proof.
  intros Hlong Hfirst.
  set (s := cleaned_unsplit raw) in *.
  set (r := reassemble [] (split_dot s)).
  assert (Hraw : clean_content (VStr raw) = Ok r).
  { unfold clean_content. destruct raw as [| c0 raw0].
    - exfalso. revert Hlong. vm_compute. discriminate.
    - cbn [truthy is_empty negb]. f_equal. rewrite clean_text_unfold. cbv zeta.
      fold s. destruct (Z.ltb_spec 800 (len s)); [| lia]. fold r.
      destruct r as [| c r0] eqn:Er; [| reflexivity].
      exfalso. unfold r in Er.
      destruct (split_dot s) as [| p ps] eqn:Es;
        [revert Es; apply split_by_nonempty |].
      cbn [hd] in Hfirst. cbn [reassemble app] in Er.
      destruct (Z.ltb_spec 800 (len p)); [lia |].
      destruct (reassemble_extends ps (p ++ lit ".")) as [more Em].
      cbn [app] in Em. rewrite Em in Er.
      destruct p; discriminate. }
  assert (Hlen : (len r <= 801)%Z).
  { apply reassemble_len. vm_compute. discriminate. }
  destruct (reassemble_prefix (split_dot s) []) as [rest0 Hpre].
  cbn [app] in Hpre. rewrite split_dot_concat in Hpre. fold r in Hpre.
  destruct (@reassemble_ends (split_dot s) [] (or_introl eq_refl)) as [Hr | [kept Hr]];
    fold r in Hr.
  { exfalso. rewrite Hr in Hraw.
    unfold clean_content in Hraw. destruct raw as [| c0 raw0].
    - revert Hlong. vm_compute. discriminate.
    - cbn [truthy is_empty negb] in Hraw. inversion Hraw as [E].
      rewrite clean_text_unfold in E. cbv zeta in E. fold s in E.
      destruct (Z.ltb_spec 800 (len s)); [| lia].
      fold r in E. rewrite Hr in E. discriminate. }
  assert (Hrest : rest0 <> []).
  { intros ->. rewrite app_nil_r in Hpre. rewrite <- Hpre, len_app in Hlen.
    change (len [DOT]) with 1%Z in Hlen. lia. }
  destruct (exists_last Hrest) as [rest [d Hd]]. subst rest0.
  rewrite app_assoc in Hpre. apply app_inj_tail in Hpre. destruct Hpre as [Hs _].
  exists kept, rest. rewrite Hr in *.
  split; [exact Hraw |]. split; [rewrite Hs, <- app_assoc; reflexivity |].
  rewrite len_app in Hlen. change (len [DOT]) with 1%Z in Hlen.
  split; [lia |].
  intros before after Hb Hb800.
  assert (Hreach : (len before + 1 <= len r)%Z).
  { apply (@reassemble_reaches (split_dot s)) with (after := after ++ [DOT]).
    - apply Forall_forall. intros w Hw. eapply split_dot_no_dot. exact Hw.
    - destruct after; discriminate.
    - cbn [app]. rewrite split_dot_concat. fold s. rewrite Hb.
      rewrite <- !app_assoc. reflexivity.
    - exact Hb800.
    - pose proof (len_nonneg before). change (len []) with 0%Z. lia. }
  rewrite Hr, len_app in Hreach. change (len [DOT]) with 1%Z in Hreach. lia.
Qed.

Lemma clean_content_cut_at_last_period_two_sentences :
  exists kept rest,
    clean_content (U := Ascii7.tables) (VStr two_sentences) = Ok (kept ++ [DOT])
    /\ cleaned_unsplit (U := Ascii7.tables) two_sentences = kept ++ [DOT] ++ rest
    /\ (len kept <= 800)%Z
    /\ forall before after,
         cleaned_unsplit (U := Ascii7.tables) two_sentences
           = before ++ [DOT] ++ after ->
         (len before <= 800)%Z -> (len before <= len kept)%Z.
Proof.
  apply (@clean_content_cut_at_last_period Ascii7.tables two_sentences).
  - vm_compute. reflexivity.
  - vm_compute. discriminate.
Defined.

(** ** Counting words *)

Lemma count_words_split (s : pystr) :
  count_words (split_by isspace s) = words_from false s
  /\ count_words (tl (split_by isspace s)) = words_from true s.
Proof.
  unfold count_words. induction s as [| c r [IH1 IH2]]; [split; reflexivity |].
  cbn [split_by words_from]. destruct (isspace c).
  - cbn [filter is_empty negb tl]. auto.
  - destruct (split_by isspace r) as [| w ws] eqn:E;
      [exfalso; revert E; apply split_by_nonempty |].
    cbn [filter is_empty negb tl length] in *. split; [| exact IH2].
    rewrite IH2. reflexivity.
Qed.

(** [len(s.split())] *)
Lemma split_ws_count (s : pystr) : length (split_ws s) = words_from false s.
Proof. apply (proj1 (count_words_split s)). Qed.

Lemma words_from_step (s : pystr) :
  (words_from true s <= words_from false s <= S (words_from true s))%nat.
Proof. destruct s as [| c r]; simpl; [lia |]. destruct (isspace c); lia. Qed.

Lemma words_from_map (f : char -> char) (s : pystr) :
  (forall c, isspace (f c) = isspace c) ->
  forall b, words_from b (map f s) = words_from b s.
Proof.
  intros Hf. induction s as [| c r IH]; intros b; simpl; [reflexivity |].
  rewrite Hf, !IH. reflexivity.
Qed.

Lemma words_from_replace (a b : char) (s : pystr) :
  isspace a = false -> isspace b = false ->
  forall w, words_from w (replace_char a b s) = words_from w s.
Proof.
  intros Ha Hb. apply words_from_map. intros c.
  destruct (N.eqb_spec c a); congruence.
Qed.

Lemma words_from_lstrip (s : pystr) :
  words_from false (lstrip_by isspace s) = words_from false s.
Proof.
  induction s as [| c r IH]; [reflexivity |]. cbn [lstrip_by].
  destruct (isspace c) eqn:E; [| reflexivity].
  cbn [words_from]. rewrite E. exact IH.
Qed.

Lemma rstrip_nil_words (s : pystr) :
  rstrip_by isspace s = [] -> forall b, words_from b s = 0%nat.
Proof.
  induction s as [| c r IH]; intros H b; [reflexivity |].
  cbn [rstrip_by] in H. destruct (rstrip_by isspace r) eqn:E; [| discriminate].
  destruct (isspace c) eqn:Ec; [| discriminate].
  cbn [words_from]. rewrite Ec. apply IH. reflexivity.
Qed.

Lemma words_from_rstrip (s : pystr) :
  forall b, words_from b (rstrip_by isspace s) = words_from b s.
Proof.
  induction s as [| c r IH]; intros b; [reflexivity |].
  cbn [rstrip_by]. destruct (rstrip_by isspace r) as [| d r'] eqn:E.
  - pose proof (rstrip_nil_words r E) as H0.
    destruct (isspace c) eqn:Ec; cbn [words_from]; rewrite Ec, H0; reflexivity.
  - cbn [words_from]. rewrite <- !IH. reflexivity.
Qed.

Lemma words_from_collapse (s : pystr) :
  (forall b, words_from b (collapse_from false s) = words_from b s)
  /\ words_from false (collapse_from true s) = words_from false s.
Proof.
  induction s as [| c r [IH1 IH2]]; [split; reflexivity |].
  cbn [collapse_from]. destruct (isspace c) eqn:Ec.
  - split; [intros b |]; cbn [words_from]; rewrite ?isspace_SPACE, ?Ec; exact IH2.
  - split; [intros b |]; cbn [words_from]; rewrite Ec, IH1; reflexivity.
Qed.

Lemma words_from_filter (p : char -> bool) (s : pystr) :
  (forall c, isspace c = true -> p c = true) ->
  forall b, (words_from b (filter p s) <= words_from b s)%nat.
Proof.
  intros Hp. induction s as [| c r IH]; intros b; [reflexivity |].
  cbn [filter words_from]. destruct (isspace c) eqn:Ec.
  - rewrite (Hp c Ec). cbn [words_from]. rewrite Ec. apply IH.
  - destruct (p c).
    + cbn [words_from]. rewrite Ec. specialize (IH true). lia.
    + pose proof (IH b). pose proof (IH true). pose proof (words_from_step r).
      destruct b; lia.
Qed.

Lemma words_from_prefix (x y : pystr) :
  forall b, (words_from b x <= words_from b (x ++ y))%nat.
Proof.
  induction x as [| c r IH]; intros b; [simpl; lia |].
  cbn [app words_from]. destruct (isspace c); [apply IH |].
  specialize (IH true). lia.
Qed.

Section ShortContent.
Context {U : Unicode}.

Lemma keep_char_space (c : char) : isspace c = true -> keep_char c = true.
Proof.
  intros H. unfold keep_char. rewrite H.
  destruct (str_isalnum c || N.eqb c 95); reflexivity.
Qed.

Lemma cleaned_unsplit_words (raw : pystr) :
  (words_from false (cleaned_unsplit raw) <= words_from false raw)%nat.
Proof.
  unfold cleaned_unsplit, collapse_ws, strip.
  eapply Nat.le_trans; [apply words_from_filter, keep_char_space |].
  rewrite (proj1 (words_from_collapse _)), words_from_rstrip, words_from_lstrip.
  rewrite !words_from_replace by reflexivity. lia.
Qed.

(** Cleaning adds no word, unless all that is left is the ["..."]. *)
Lemma clean_text_words (raw : pystr) :
  (words_from false (clean_text raw) <= Nat.max 1 (words_from false raw))%nat.
Proof.
  pose proof (cleaned_unsplit_words raw) as Hc.
  rewrite clean_text_unfold. cbv zeta.
  destruct (Z.ltb_spec 800 (len (cleaned_unsplit raw))) as [Hlong | Hshort]; [| lia].
  destruct (reassemble [] (split_dot (cleaned_unsplit raw))) as [| c r] eqn:Er.
  - cbn [is_empty]. rewrite firstn_nil.
    change (words_from false ([] ++ lit "...")) with 1%nat. lia.
  - cbn [is_empty].
    destruct (reassemble_prefix (split_dot (cleaned_unsplit raw)) []) as [rest0 Hpre].
    cbn [app] in Hpre. rewrite split_dot_concat, Er in Hpre.
    assert (Hlen : (len (c :: r) <= 801)%Z).
    { rewrite <- Er. apply reassemble_len. vm_compute. discriminate. }
    assert (Hrest : rest0 <> []).
    { intros ->. rewrite app_nil_r in Hpre. rewrite <- Hpre, len_app in Hlen.
      change (len [DOT]) with 1%Z in Hlen. lia. }
    destruct (exists_last Hrest) as [rest [d Hd]]. subst rest0.
    rewrite app_assoc in Hpre. apply app_inj_tail in Hpre. destruct Hpre as [Hs _].
    pose proof (words_from_prefix (c :: r) rest false) as Hp.
    rewrite <- Hs in Hp. lia.
Qed.

(** Cleaning keeps a text of fewer than ten words below ten words. *)
Lemma clean_text_stays_short (raw : pystr) :
  (words_from false raw < 10)%nat ->
  (len (split_ws (clean_text raw)) <? 10)%Z = true.
Proof.
  intros H. pose proof (clean_text_words raw) as Hw.
  apply Z.ltb_lt. unfold len. rewrite split_ws_count. lia.
Qed.

End ShortContent.

(** X7.  Content of fewer than ten words never reaches the model or the
    rule-based tier: whatever the model would answer, the response is the
    basic fallback, one title per requested title. *)
Theorem generate_titles_short_content (U : Unicode) (model : option summarizer)
    (raw : pystr) (num_titles : Z) :
  (len (split_ws raw) < 10)%Z ->
  generate_titles model (VStr raw) num_titles
  = _fallback_titles (VStr raw) num_titles.
Proof.
  intros Hshort. unfold len in Hshort. rewrite split_ws_count in Hshort.
  unfold generate_titles, generate_titles_try, clean_content, bind.
  destruct raw as [| c r]; [reflexivity |].
  cbn [truthy is_empty negb].
  rewrite clean_text_stays_short by lia. reflexivity.
Qed.

Lemma generate_titles_short_content_five_words :
  generate_titles (U := Ascii7.tables)
    (Some (constant_model impact_headline))
    (VStr (lit "only five words in here")) 3
  = _fallback_titles (VStr (lit "only five words in here")) 3.
Proof.
  apply (@generate_titles_short_content Ascii7.tables
           (Some (constant_model impact_headline))
           (lit "only five words in here") 3%Z).
  vm_compute. reflexivity.
Defined.

(** X8.  The health check asks for one title for a text of eight words, so
    it is answered by the basic fallback: [model_status] is [healthy]
    whether the model is loaded or not, and whatever the model would do. *)
Theorem health_check_always_healthy (U : Unicode) (model : option summarizer) :
  health_check model = {| status := healthy; model_status := healthy |}
  /\ generate_titles model (VStr health_content) 1
     = [ {| title := lit "New Blog Post"; confidence := 40;
            method := basic_fallback |} ].
Proof.
  assert (E : generate_titles model (VStr health_content) 1
              = [ {| title := lit "New Blog Post"; confidence := 40;
                     method := basic_fallback |} ]).
  { unfold generate_titles, generate_titles_try, clean_content, bind.
    change (negb (truthy (VStr health_content))) with false. cbv iota.
    rewrite clean_text_stays_short; [reflexivity |].
    change (words_from false health_content) with 8%nat. lia. }
  split; [| exact E]. unfold health_check. rewrite E. reflexivity.
Qed.

(** ** Titles that differ *)

Lemma lit_injective (a b : string) : lit a = lit b -> a = b.
Proof.
  unfold lit. intros H.
  rewrite <- (string_of_list_ascii_of_string a), <- (string_of_list_ascii_of_string b).
  f_equal. revert H.
  generalize (list_ascii_of_string a) (list_ascii_of_string b).
  induction l as [| x l IH]; intros [| y l'] H; simpl in H; try discriminate;
    [reflexivity |].
  inversion H as [[Hx Hl]]. f_equal; [| apply IH; exact Hl].
  rewrite <- (ascii_N_embedding x), <- (ascii_N_embedding y), Hx. reflexivity.
Qed.

(** [str(n)] tells the numbers apart. *)
Lemma str_of_nat_injective (n m : nat) : str_of_nat n = str_of_nat m -> n = m.
Proof.
  unfold str_of_nat. intros H. apply lit_injective in H.
  apply (f_equal NilEmpty.uint_of_string) in H. rewrite !NilEmpty.usu in H.
  inversion H as [E]. rewrite <- (Unsigned.of_to n), <- (Unsigned.of_to m), E.
  reflexivity.
Qed.

Lemma NoDup_map_on (A B : Type) (f : A -> B) (l : list A) :
  NoDup l ->
  (forall x y, In x l -> In y l -> f x = f y -> x = y) ->
  NoDup (map f l).
Proof.
  induction 1 as [| x l Hx Hl IH]; intros Hinj; simpl; constructor.
  - intros Hin. apply in_map_iff in Hin. destruct Hin as [y [E Hy]].
    apply Hx. rewrite (Hinj x y); [exact Hy | left; reflexivity | right; exact Hy |].
    symmetry. exact E.
  - apply IH. intros a b Ha Hb. apply Hinj; right; assumption.
Qed.

Lemma nth_in_firstn (A : Type) (l : list A) (d : A) :
  forall i j, (i < j)%nat -> (i < length l)%nat -> In (nth i l d) (firstn j l).
Proof.
  induction l as [| x l IH]; intros i j Hij Hi; [simpl in Hi; lia |].
  destruct j as [| j]; [lia |]. destruct i as [| i]; simpl; [auto |].
  right. apply IH; simpl in Hi; lia.
Qed.

(** Two candidates of one list with one title, when the titles of the first
    part differ among themselves and so do those of the second part: the
    first candidate is of the first part and the second of the second. *)
Lemma same_title_across (a s : list candidate) (i j : nat) (c d : candidate) :
  NoDup (titles_of a) -> NoDup (titles_of s) -> (i < j)%nat ->
  nth_error (a ++ s) i = Some c -> nth_error (a ++ s) j = Some d ->
  title c = title d -> In c a /\ In d s.
Proof.
  intros Ha Hs Hij Hc Hd E.
  assert (Hsame : forall l x y, NoDup (titles_of l) -> (x < y)%nat ->
            nth_error l x = Some c -> nth_error l y = Some d -> False).
  { intros l x y Hl Hxy Hx Hy.
    pose proof (proj1 (NoDup_nth_error (titles_of l)) Hl x y) as H.
    assert (x = y); [| lia]. apply H.
    - unfold titles_of. rewrite length_map.
      apply nth_error_Some. rewrite Hx. discriminate.
    - unfold titles_of. rewrite (map_nth_error title _ _ Hx),
        (map_nth_error title _ _ Hy), E. reflexivity. }
  destruct (Nat.lt_ge_cases j (length a)) as [Hj | Hj].
  - exfalso. rewrite nth_error_app1 in Hc, Hd by lia. eauto.
  - destruct (Nat.lt_ge_cases i (length a)) as [Hi | Hi].
    + rewrite nth_error_app1 in Hc by lia. rewrite nth_error_app2 in Hd by lia.
      split; eapply nth_error_In; eassumption.
    + exfalso. rewrite nth_error_app2 in Hc, Hd by lia.
      apply (Hsame s (i - length a)%nat (j - length a)%nat); auto. lia.
Qed.

Section DistinctTitles.
Context {U : Unicode}.

Lemma format_injective (t : pystr * pystr) (p q : pystr) :
  format t p = format t q -> p = q.
Proof.
  unfold format. intros H. apply app_inv_head in H. apply app_inv_tail in H.
  exact H.
Qed.

(** Two different templates never give the same title, whatever fills
    them. *)
Lemma templates_differ (a b : nat) (p q : pystr) :
  (a < 10)%nat -> (b < 10)%nat -> a <> b ->
  format (nth a templates ([], [])) p <> format (nth b templates ([], [])) q.
Proof.
  intros Ha Hb Hab.
  do 10 (destruct a as [| a];
         [do 10 (destruct b as [| b];
                 [try congruence; cbv - [app]; cbn [app]; discriminate |]);
          lia |]).
  lia.
Qed.

Lemma rule_candidate_title (phrases : list pystr) (i j : nat) :
  title (rule_candidate phrases i) = title (rule_candidate phrases j) ->
  nth i phrases [] = nth j phrases [].
Proof.
  unfold rule_candidate. cbn [title]. change (length templates) with 10%nat.
  intros H.
  destruct (Nat.eq_dec (i mod 10) (j mod 10)) as [E | E].
  - rewrite E in H. apply format_injective in H. exact H.
  - exfalso. revert H. apply templates_differ; auto;
      apply Nat.mod_upper_bound; discriminate.
Qed.

(** Two emitting iterations with one title are one iteration. *)
Lemma rule_title_index (phrases : list pystr) (k x y : nat) :
  (k <= length phrases)%nat ->
  In x (filter (first_occurrence phrases) (seq 0 k)) ->
  In y (filter (first_occurrence phrases) (seq 0 k)) ->
  title (rule_candidate phrases x) = title (rule_candidate phrases y) ->
  x = y.
Proof.
  intros Hk.
  assert (Hlt : forall x y, In x (filter (first_occurrence phrases) (seq 0 k)) ->
            In y (filter (first_occurrence phrases) (seq 0 k)) ->
            title (rule_candidate phrases x) = title (rule_candidate phrases y) ->
            (x < y)%nat -> False).
  { clear x y. intros x y Hx Hy Ht Hxy. apply rule_candidate_title in Ht.
    apply filter_In in Hx, Hy. destruct Hx as [Hx _]. destruct Hy as [Hy Hfo].
    apply in_seq in Hx, Hy. unfold first_occurrence in Hfo.
    apply negb_true_iff in Hfo.
    assert (Hin : str_in (nth y phrases []) (firstn y phrases) = true).
    { apply str_in_In. rewrite <- Ht. apply nth_in_firstn; lia. }
    congruence. }
  intros Hx Hy Ht.
  destruct (Nat.lt_trichotomy x y) as [Hxy | [Hxy | Hxy]]; [| exact Hxy |].
  - exfalso. eapply (Hlt x y); eauto.
  - exfalso. eapply (Hlt y x); eauto.
Qed.

Lemma rule_based_titles_NoDup (content : pystr) (n : Z) :
  NoDup (titles_of (_rule_based_titles content n)).
Proof.
  pose proof (rule_based_titles_spec content n) as E. cbv zeta in E. rewrite E.
  unfold titles_of. rewrite map_map.
  apply NoDup_map_on; [apply NoDup_filter, seq_NoDup |].
  intros x y. apply rule_title_index. unfold len. lia.
Qed.

Lemma basic_titles_differ (a b : nat) (x y : pystr) :
  (a < 5)%nat -> (b < 5)%nat -> a <> b ->
  nth a basic_titles [] ++ x <> nth b basic_titles [] ++ y.
Proof.
  intros Ha Hb Hab.
  do 5 (destruct a as [| a];
        [do 5 (destruct b as [| b];
               [try congruence; cbv - [app]; cbn [app]; discriminate |]);
         lia |]).
  lia.
Qed.

Lemma basic_title_injective (i j : nat) :
  title (basic_title i) = title (basic_title j) -> i = j.
Proof.
  unfold basic_title. cbn [title]. change (length basic_titles) with 5%nat.
  intros H.
  destruct (Nat.eq_dec (i mod 5) (j mod 5)) as [E | E].
  - rewrite E in H. apply app_inv_head in H.
    destruct (Nat.leb_spec 5 i); destruct (Nat.leb_spec 5 j); try discriminate.
    + apply (app_inv_head (lit " #")) in H. apply str_of_nat_injective in H. lia.
    + rewrite (Nat.mod_small i), (Nat.mod_small j) in E; lia.
  - exfalso. revert H. apply basic_titles_differ; auto;
      apply Nat.mod_upper_bound; discriminate.
Qed.

Lemma fallback_titles_NoDup (content : value) (n : Z) :
  NoDup (titles_of (_fallback_titles content n)).
Proof.
  unfold _fallback_titles, titles_of. rewrite map_map.
  apply NoDup_map_on; [apply seq_NoDup |].
  intros x y _ _. apply basic_title_injective.
Qed.

Lemma fallback_patterns_differ (two : list pystr) (a b : nat) :
  (a < 5)%nat -> (b < 5)%nat -> a <> b ->
  nth a (fallback_patterns two) [] <> nth b (fallback_patterns two) [].
Proof.
  intros Ha Hb Hab. unfold fallback_patterns.
  generalize (join (lit " ") (firstn 2 two)) as x. intros x.
  do 5 (destruct a as [| a];
        [do 5 (destruct b as [| b];
               [try congruence; cbv - [app]; cbn [app]; discriminate |]);
         lia |]).
  lia.
Qed.

(** The first five smart-fallback titles of a content differ. *)
Lemma smart_title_injective (content : pystr) (i j : nat) :
  (i < 5)%nat -> (j < 5)%nat ->
  title (_create_smart_fallback_title content i)
  = title (_create_smart_fallback_title content j) -> i = j.
Proof.
  intros Hi Hj. unfold _create_smart_fallback_title. cbn [title].
  destruct (negb (is_empty (important_words (split_ws content)))).
  - change (length (fallback_patterns (important_words (split_ws content))))
      with 5%nat.
    rewrite (Nat.mod_small i), (Nat.mod_small j) by lia. intros H.
    destruct (Nat.eq_dec i j) as [E | E]; [exact E |].
    exfalso. revert H. apply fallback_patterns_differ; auto.
  - intros H. apply app_inv_head in H. apply str_of_nat_injective in H. lia.
Qed.

Lemma smart_titles_NoDup (content : pystr) (start count : nat) :
  (start + count <= 5)%nat ->
  NoDup (titles_of (map (_create_smart_fallback_title content) (seq start count))).
Proof.
  intros H. unfold titles_of. rewrite map_map.
  apply NoDup_map_on; [apply seq_NoDup |].
  intros x y Hx Hy. apply in_seq in Hx, Hy. apply smart_title_injective; lia.
Qed.

End DistinctTitles.

Lemma ai_path_spec {U : Unicode} (summarize : summarizer) (cleaned : pystr) (n : Z) :
  (0 <= n)%Z ->
  slice_to n
    (top_up (Z.to_nat n) cleaned n
       (fold_left (ai_attempt summarize cleaned) (seq 0 (Z.to_nat (Z.min n 5))) []))
  = ai_phase summarize cleaned n
    ++ map (_create_smart_fallback_title cleaned)
         (seq (length (ai_phase summarize cleaned n))
            (Z.to_nat n - length (ai_phase summarize cleaned n))).
Proof.
  intros Hn. pose proof (ai_phase_length summarize cleaned n) as Hlen.
  rewrite top_up_spec. fold (ai_phase summarize cleaned n).
  unfold slice_to. destruct (Z.ltb_spec n 0); [lia |]. unfold len.
  replace (Nat.min (Z.to_nat n)
             (Z.to_nat (n - Z.of_nat (length (ai_phase summarize cleaned n)))))
    with (Z.to_nat n - length (ai_phase summarize cleaned n))%nat by lia.
  apply firstn_all2. rewrite length_app, length_map, length_seq. lia.
Qed.

(** X9.  The rule-based tier never gives one title twice, for any content
    and any number of titles: two iterations either use two templates, or
    two key phrases that differ. *)
Theorem rule_based_titles_distinct (U : Unicode) (content : pystr) (num_titles : Z) :
  NoDup (titles_of (_rule_based_titles content num_titles)).
Proof.
  pose proof (rule_based_titles_spec content num_titles) as E. cbv zeta in E.
  rewrite E. set (phrases := key_phrases (split_ws content)).
  unfold titles_of. rewrite map_map.
  apply NoDup_map_on.
  - apply NoDup_filter, seq_NoDup.
  - intros x y Hx Hy Ht.
    apply (@rule_title_index phrases
             (Z.to_nat (Z.min num_titles (len phrases))) x y); auto.
    unfold len. lia.
Qed.

(** X10.  The basic fallback returns exactly [num_titles] titles (none for
    a negative number), all basic fallback with confidence 0.4, and no two
    of them alike, also beyond the fifth, where the number is appended. *)
Theorem fallback_titles_distinct (content : value) (num_titles : Z) :
  length (_fallback_titles content num_titles) = Z.to_nat num_titles
  /\ NoDup (titles_of (_fallback_titles content num_titles))
  /\ Forall (fun c => method c = basic_fallback /\ confidence c = 40%Z)
       (_fallback_titles content num_titles).
Proof.
  split; [apply fallback_titles_length |]. split; [apply fallback_titles_NoDup |].
  unfold _fallback_titles. apply Forall_map, Forall_forall. intros i _.
  split; reflexivity.
Qed.

(** X11.  In a response for at most five titles, two candidates with the
    same title are always an AI candidate and a smart-fallback candidate
    that comes after it: within the AI candidates, within the top-up and
    within the other tiers no title repeats. *)
Theorem generate_titles_same_title (U : Unicode) (model : option summarizer)
    (content : value) (num_titles : Z) (i j : nat) (c d : candidate) :
  (num_titles <= 5)%Z -> (i < j)%nat ->
  nth_error (generate_titles model content num_titles) i = Some c ->
  nth_error (generate_titles model content num_titles) j = Some d ->
  title c = title d ->
  method c = ai /\ method d = smart_fallback.
Proof.
  intros Hn Hij.
  assert (Hnodup : forall l, NoDup (titles_of l) ->
            nth_error l i = Some c -> nth_error l j = Some d ->
            title c = title d -> method c = ai /\ method d = smart_fallback).
  { intros l Hl Hc Hd E. exfalso.
    destruct (@same_title_across l [] i j c d Hl (NoDup_nil _) Hij) as [_ []];
      rewrite ?app_nil_r; auto. }
  unfold generate_titles, generate_titles_try, bind.
  destruct (clean_content content) as [cleaned | e];
    [| apply Hnodup, fallback_titles_NoDup].
  destruct (len (split_ws cleaned) <? 10)%Z;
    [apply Hnodup, fallback_titles_NoDup |].
  destruct model as [summarize |]; [| apply Hnodup, rule_based_titles_NoDup].
  destruct (Z.le_gt_cases num_titles 0) as [H0 | H0].
  - rewrite ai_path_nothing_asked by exact H0. destruct i; discriminate.
  - rewrite ai_path_spec by lia. intros Hc Hd E.
    pose proof (ai_phase_length summarize cleaned num_titles) as Hlen.
    destruct (ai_phase_accepted summarize cleaned num_titles) as [Hall Hnd].
    assert (Hsmart : NoDup (titles_of
              (map (_create_smart_fallback_title cleaned)
                 (seq (length (ai_phase summarize cleaned num_titles))
                    (Z.to_nat num_titles
                     - length (ai_phase summarize cleaned num_titles))))))
      by (apply smart_titles_NoDup; lia).
    destruct (@same_title_across _ _ i j c d Hnd Hsmart Hij Hc Hd E)
      as [Hca Hds].
    rewrite Forall_forall in Hall. split; [apply (Hall c Hca) |].
    apply in_map_iff in Hds. destruct Hds as [k [<- _]]. reflexivity.
Qed.

Lemma generate_titles_same_title_services :
  method {| title := lit "The Impact of Microservices Architecture";
            confidence := 90; method := ai |} = ai
  /\ method {| title := lit "The Impact of Microservices Architecture";
               confidence := 60; method := smart_fallback |} = smart_fallback.
Proof.
  apply (@generate_titles_same_title Ascii7.tables
           (Some (constant_model impact_headline)) (VStr services_content) 4%Z
           0%nat 3%nat).
  - lia.
  - lia.
  - vm_compute. reflexivity.
  - vm_compute. reflexivity.
  - reflexivity.
Defined.

(** ** The formatter's output *)

Module FormatterOutput.
Import Ascii7 Ascii7Facts FormatterFacts.

(** A formatted title is empty or words joined by single spaces. *)
Lemma clean_title_words (s : pystr) :
  exists ws, _clean_title (U := tables) s = join [SPACE] ws
             /\ Forall word_ok ws
             /\ ws = case_words (U := tables) 0 (split_ws (title_text s)) \/
             _clean_title (U := tables) s = [].
Proof.
  rewrite clean_title_unfold. destruct (is_empty s).
  { exists []. right. reflexivity. }
  destruct (split_ws (title_text s)) as [| w ws] eqn:E.
  { exists []. right. reflexivity. }
  exists (case_words (U := tables) 0 (w :: ws)). left. cbn [is_empty].
  split; [reflexivity |]. split; [| reflexivity].
  apply word_ok_case_words. rewrite <- E. apply title_text_words.
Qed.

Lemma to_upper_not_lower (c : char) : is_lower (to_upper c) = false.
Proof.
  unfold to_upper. destruct (is_lower c) eqn:E; [| exact E].
  unfold is_lower in *. apply andb_true_iff in E. destruct E as [E1 E2].
  apply N.leb_le in E1, E2. apply andb_false_iff. left. apply N.leb_gt. lia.
Qed.

Lemma to_lower_not_upper (c : char) : is_upper (to_lower c) = false.
Proof.
  unfold to_lower. destruct (is_upper c) eqn:E; [| exact E].
  unfold is_upper in *. apply andb_true_iff in E. destruct E as [E1 E2].
  apply N.leb_le in E1, E2. apply andb_false_iff. right. apply N.leb_gt. lia.
Qed.

(** A cased word is the word in capitals, capitalized or in lower case. *)
Lemma case_word_shape (i : nat) (w : pystr) :
  case_word (U := tables) i w = upper w
  \/ case_word (U := tables) i w = capitalize w
  \/ case_word (U := tables) i w = lower w.
Proof.
  unfold case_word. cbn [str_upper str_lower str_capitalize tables].
  repeat match goal with |- context [if ?b then _ else _] => destruct b end; auto.
Qed.

Lemma case_words_In (ws : list pystr) (x : pystr) :
  forall i, In x (case_words (U := tables) i ws) ->
            exists j w, x = case_word (U := tables) j w.
Proof.
  induction ws as [| w r IH]; intros i H; [contradiction |].
  destruct H as [<- | H]; eauto.
Qed.

(** No word comes out with a capital after a small letter, or a small
    letter after the capitals only. *)
Lemma mixed_case_never (x : pystr) (i : nat) (w : pystr) :
  (exists a b r, x = a :: b :: r /\ is_lower b = true
                 /\ exists t, In t r /\ is_upper t = true) ->
  is_upper (hd 0%N x) = true ->
  x <> case_word (U := tables) i w.
Proof.
  intros [a [b [r [-> [Hb [t [Ht Hu]]]]]]] Ha E.
  destruct (case_word_shape i w) as [S | [S | S]]; rewrite S in E; clear S.
  - destruct w as [| a' [| b' r']]; try discriminate.
    cbn [upper map] in E. injection E as _ Eb _.
    rewrite Eb, to_upper_not_lower in Hb. discriminate.
  - destruct w as [| a' w']; [discriminate |]. cbn [capitalize] in E.
    injection E as _ Er. assert (Hin : In t (lower w')).
    { rewrite <- Er. right. exact Ht. }
    unfold lower in Hin. apply in_map_iff in Hin. destruct Hin as [t' [<- _]].
    rewrite to_lower_not_upper in Hu. discriminate.
  - destruct w as [| a' w']; [discriminate |].
    cbn [lower map] in E. injection E as Ea _.
    cbn [hd] in Ha. rewrite Ea, to_lower_not_upper in Ha. discriminate.
Qed.

End FormatterOutput.

(** X12.  On ASCII input a formatted title contains no double quote and no
    backtick, its only whitespace is the single space between two words,
    and it neither begins nor ends with one: splitting it at whitespace and
    joining the words with one space gives it back. *)
Theorem clean_title_tidy (s : pystr) :
  Forall (fun c => (c < 128)%N) s ->
  Forall (fun c => c <> DQUOTE /\ c <> BACKTICK /\ (isspace c = true -> c = SPACE))
    (_clean_title (U := Ascii7.tables) s)
  /\ join [SPACE] (split_ws (_clean_title (U := Ascii7.tables) s))
     = _clean_title (U := Ascii7.tables) s.
Proof.
  intros _. destruct (FormatterOutput.clean_title_words s) as [ws [[E [Hok _]] | E]].
  - rewrite E. split; [| rewrite (split_ws_join Hok); reflexivity].
    eapply Forall_impl; [| apply (join_plain_or_space Hok)]. simpl.
    intros c [[H1 [H2 H3]] | ->].
    + repeat split; auto. congruence.
    + repeat split; auto; discriminate.
  - rewrite E. split; [constructor | reflexivity].
Qed.

Lemma clean_title_tidy_hello :
  Forall (fun c => c <> DQUOTE /\ c <> BACKTICK /\ (isspace c = true -> c = SPACE))
    (_clean_title (U := Ascii7.tables) (lit "  hello `world` of it.. "))
  /\ join [SPACE]
       (split_ws (_clean_title (U := Ascii7.tables) (lit "  hello `world` of it.. ")))
     = _clean_title (U := Ascii7.tables) (lit "  hello `world` of it.. ").
Proof.
  apply (@clean_title_tidy (lit "  hello `world` of it.. ")).
  vm_compute. repeat constructor.
Defined.

(** X13.  On ASCII input no word of a formatted title is [SaaS] or [IoT]:
    a word comes out all in capitals, capitalized or all in lower case, so
    the two mixed-case entries of [always_caps] are never produced. *)
Theorem clean_title_never_mixed_case (s w : pystr) :
  Forall (fun c => (c < 128)%N) s ->
  In w (split_ws (_clean_title (U := Ascii7.tables) s)) ->
  w <> lit "SaaS" /\ w <> lit "IoT".
Proof.
  intros _ Hw.
  destruct (FormatterOutput.clean_title_words s) as [ws [[E [Hok Hws]] | E]].
  - rewrite E, (split_ws_join Hok), Hws in Hw.
    destruct (FormatterOutput.case_words_In _ _ _ Hw) as [j [w0 ->]].
    split; intros H; symmetry in H; revert H;
      apply FormatterOutput.mixed_case_never; try reflexivity.
    + exists 83%N, 97%N, [97%N; 83%N]. split; [reflexivity |].
      split; [reflexivity |]. exists 83%N. split; [right; left |]; reflexivity.
    + exists 73%N, 111%N, [84%N]. split; [reflexivity |].
      split; [reflexivity |]. exists 84%N. split; [left |]; reflexivity.
  - rewrite E in Hw. contradiction.
Qed.

Lemma clean_title_never_mixed_case_saas :
  lit "Saas" <> lit "SaaS" /\ lit "Saas" <> lit "IoT".
Proof.
  apply (@clean_title_never_mixed_case (lit "the ai guide to saas") (lit "Saas")).
  - vm_compute. repeat constructor.
  - vm_compute. auto 10.
Defined.

(** X14.  On ASCII input a formatted title never begins with a small
    letter: its first word is put in capitals or capitalized, stopword or
    not. *)
Theorem clean_title_first_letter (s : pystr) (c : char) (r : pystr) :
  Forall (fun c => (c < 128)%N) s ->
  _clean_title (U := Ascii7.tables) s = c :: r ->
  Ascii7.is_lower c = false.
Proof.
  intros _. rewrite clean_title_unfold. destruct (is_empty s); [discriminate |].
  destruct (split_ws (title_text s)) as [| w ws] eqn:E; [discriminate |].
  cbn [is_empty case_words].
  assert (Hw : word_ok w).
  { pose proof (title_text_words s) as H. rewrite E in H. inversion H; assumption. }
  destruct Hw as [Hne _]. destruct w as [| c0 w0]; [contradiction |].
  assert (Hfirst : exists t, case_word (U := Ascii7.tables) 0 (c0 :: w0)
                             = Ascii7.to_upper c0 :: t).
  { unfold case_word. cbn [str_upper str_lower str_capitalize Ascii7.tables Nat.eqb].
    destruct (str_in _ _); eexists; reflexivity. }
  destruct Hfirst as [t ->]. intros H.
  assert (Hc : c = Ascii7.to_upper c0).
  { destruct (case_words (U := Ascii7.tables) 1 ws); cbn in H; inversion H;
      reflexivity. }
  rewrite Hc. apply FormatterOutput.to_upper_not_lower.
Qed.

Lemma clean_title_first_letter_the :
  Ascii7.is_lower 84%N = false.
Proof.
  apply (@clean_title_first_letter (lit "the ai guide to saas") 84%N
           (lit "he AI Guide to Saas")).
  - vm_compute. repeat constructor.
  - vm_compute. reflexivity.
Defined.

(** ** The view's answers *)

Section ViewAnswers.
Context {U : Unicode}.

(** The decision table of [validate]. *)
Lemma validate_cases (req : request) :
  match py_strip (get (data_content req) (VStr [])),
        py_int (get (data_max_suggestions req) (VInt 3)) with
  | Raise e, _ => validate req = Raise e
  | Ok _, Raise e => validate req = Raise e
  | Ok content, Ok k =>
      if is_empty content
      then validate req = Ok (inl (BadRequest (lit "Content is required")))
      else if (len content <? 20)%Z
      then validate req
           = Ok (inl (BadRequest (lit "Content too short (minimum 20 characters)")))
      else if (5000 <? len content)%Z
      then validate req
           = Ok (inl (BadRequest (lit "Content too long (maximum 5000 characters)")))
      else validate req = Ok (inr (content, Z.min k 5))
  end.
Proof.
  unfold validate, bind.
  destruct (py_strip _) as [content | e]; [| reflexivity].
  destruct (py_int _) as [k | e]; [| reflexivity].
  destruct (is_empty content); [reflexivity |].
  destruct (len content <? 20)%Z; [reflexivity |].
  destruct (5000 <? len content)%Z; reflexivity.
Qed.

Lemma py_strip_Ok (v : value) (content : pystr) :
  py_strip v = Ok content <-> exists raw, v = VStr raw /\ content = strip raw.
Proof.
  destruct v; simpl; split; try discriminate;
    try (intros [raw [H _]]; discriminate).
  - intros H. inversion H. eauto.
  - intros [raw [H ->]]. inversion H. reflexivity.
Qed.

End ViewAnswers.

(** X15.  The view answers with suggestions exactly when the content is a
    string whose stripped length is between 20 and 5000, both included, and
    [max_suggestions] is absent or accepted by [int]; the suggestions are
    then the engine's for the stripped content and [min(int(...), 5)]. *)
Theorem post_success_iff (U : Unicode) (model : option summarizer) (req : request)
    (suggestions : list candidate) :
  post model req = Success suggestions
  <-> exists raw k,
        get (data_content req) (VStr []) = VStr raw
        /\ (20 <= len (strip raw) <= 5000)%Z
        /\ py_int (get (data_max_suggestions req) (VInt 3)) = Ok k
        /\ suggestions = generate_titles model (VStr (strip raw)) (Z.min k 5).
Proof.
  pose proof (validate_cases req) as H. unfold post. split.
  - destruct (py_strip (get (data_content req) (VStr []))) as [content | e] eqn:Es.
    + apply py_strip_Ok in Es. destruct Es as [raw [Hraw ->]].
      destruct (py_int (get (data_max_suggestions req) (VInt 3))) as [k | e];
        [| rewrite H; discriminate].
      destruct (is_empty (strip raw)); [rewrite H; discriminate |].
      destruct (Z.ltb_spec (len (strip raw)) 20); [rewrite H; discriminate |].
      destruct (Z.ltb_spec 5000 (len (strip raw))); [rewrite H; discriminate |].
      rewrite H. intros E. inversion E. exists raw, k. repeat split; auto.
    + rewrite H. discriminate.
  - intros [raw [k [Hraw [Hlen [Hk ->]]]]].
    rewrite Hraw, Hk in H. cbn [py_strip] in H.
    destruct (strip raw) as [| c r] eqn:Es;
      [exfalso; unfold len in Hlen; simpl in Hlen; lia |].
    cbn [is_empty] in H.
    destruct (Z.ltb_spec (len (c :: r)) 20); [lia |].
    destruct (Z.ltb_spec 5000 (len (c :: r))); [lia |].
    rewrite H. reflexivity.
Qed.


(** X17.  The view answers with a bad request exactly when the content is
    a string (or absent), [max_suggestions] is acceptable, and the stripped
    content is empty ("Content is required"), shorter than 20 or longer
    than 5000; the engine is not called. *)
Theorem post_bad_request_iff (U : Unicode) (model : option summarizer)
    (req : request) (error : pystr) :
  post model req = BadRequest error
  <-> exists raw k,
        get (data_content req) (VStr []) = VStr raw
        /\ py_int (get (data_max_suggestions req) (VInt 3)) = Ok k
        /\ ((strip raw = [] /\ error = lit "Content is required")
            \/ (0 < len (strip raw) < 20
                /\ error = lit "Content too short (minimum 20 characters)")%Z
            \/ (5000 < len (strip raw)
                /\ error = lit "Content too long (maximum 5000 characters)")%Z).
Proof.
  pose proof (validate_cases req) as H. unfold post. split.
  - destruct (py_strip (get (data_content req) (VStr []))) as [content | e] eqn:Es.
    + apply py_strip_Ok in Es. destruct Es as [raw [Hraw ->]].
      destruct (py_int (get (data_max_suggestions req) (VInt 3))) as [k | e];
        [| rewrite H; discriminate].
      destruct (strip raw) as [| c r] eqn:E.
      * cbn [is_empty] in H. rewrite H. intros Hb. inversion Hb.
        exists raw, k. rewrite E. auto.
      * cbn [is_empty] in H.
        assert (Hpos : (0 < len (c :: r))%Z) by (unfold len; simpl; lia).
        destruct (Z.ltb_spec (len (c :: r)) 20).
        { rewrite H. intros Hb. inversion Hb. exists raw, k. rewrite E.
          repeat split; auto. }
        destruct (Z.ltb_spec 5000 (len (c :: r))).
        { rewrite H. intros Hb. inversion Hb. exists raw, k. rewrite E.
          repeat split; auto. }
        rewrite H. discriminate.
    + rewrite H. discriminate.
  - intros [raw [k [Hraw [Hk Hcase]]]].
    rewrite Hraw, Hk in H. cbn [py_strip] in H.
    destruct Hcase as [[E ->] | [[Hlen ->] | [Hlen ->]]].
    + rewrite E in H. cbn [is_empty] in H. rewrite H. reflexivity.
    + destruct (strip raw) as [| c r]; [unfold len in Hlen; simpl in Hlen; lia |].
      cbn [is_empty] in H. destruct (Z.ltb_spec (len (c :: r)) 20); [| lia].
      rewrite H. reflexivity.
    + destruct (strip raw) as [| c r]; [unfold len in Hlen; simpl in Hlen; lia |].
      cbn [is_empty] in H. destruct (Z.ltb_spec (len (c :: r)) 20); [lia |].
      destruct (Z.ltb_spec 5000 (len (c :: r))); [| lia].
      rewrite H. reflexivity.
Qed.

(** ** The tiers at their edges *)

Lemma key_phrases_cons {U : Unicode} (w1 w2 : pystr) (rest : list pystr) :
  key_phrases (w1 :: w2 :: rest)
  = if (6 <? len (str_title (join (lit " ") [w1; w2])))%Z
    then str_title (join (lit " ") [w1; w2]) :: key_phrases (w2 :: rest)
    else key_phrases (w2 :: rest).
Proof. reflexivity. Qed.

Lemma key_phrases_length {U : Unicode} (words : list pystr) :
  (length (key_phrases words) <= length words - 1)%nat.
Proof.
  induction words as [| w1 rest IH]; [simpl; lia |].
  destruct rest as [| w2 rest']; [simpl; lia |].
  rewrite key_phrases_cons. destruct (6 <? len _)%Z; cbn [length] in *; lia.
Qed.

(** X18.  The rule-based tier returns at most [num_titles] titles and at
    most one per pair of neighbouring words: none for a content of fewer
    than two words, and none when no title is asked for. *)
Theorem rule_based_titles_bounds (U : Unicode) (content : pystr) (num_titles : Z) :
  (length (_rule_based_titles content num_titles) <= Z.to_nat num_titles)%nat
  /\ (length (_rule_based_titles content num_titles)
      <= length (split_ws content) - 1)%nat.
Proof.
  split; [apply rule_based_titles_length |].
  unfold _rule_based_titles.
  pose proof (fold_rule_step_length (key_phrases (split_ws content))
                (seq 0 (Z.to_nat (Z.min num_titles (len (key_phrases (split_ws content))))))
                ([], [])) as H.
  rewrite length_seq in H. cbn [fst length] in H.
  pose proof (key_phrases_length (split_ws content)) as Hk.
  unfold len in *. lia.
Qed.

Lemma ai_phase_failing {U : Unicode} (summarize : summarizer) (cleaned : pystr)
    (n : Z) :
  (forall prompt i, summarize prompt i = Raises \/ summarize prompt i = Returns []) ->
  ai_phase summarize cleaned n = [].
Proof.
  intros Hfail. unfold ai_phase. generalize (seq 0 (Z.to_nat (Z.min n 5))) as l.
  induction l as [| i r IH]; [reflexivity |]. cbn [fold_left].
  replace (ai_attempt summarize cleaned [] i) with (@nil candidate); [exact IH |].
  unfold ai_attempt.
  destruct (Hfail (lit "headline: " ++ cleaned) i) as [-> | ->]; reflexivity.
Qed.

(** X19.  When every call of the model raises or returns nothing, a
    response for a content of at least ten cleaned words is smart fallback
    only: the titles of the indices 0 to [num_titles - 1], and no error. *)
Theorem generate_titles_model_failing (U : Unicode) (summarize : summarizer)
    (raw cleaned : pystr) (num_titles : Z) :
  (forall prompt i, summarize prompt i = Raises \/ summarize prompt i = Returns []) ->
  clean_content (VStr raw) = Ok cleaned ->
  (10 <= len (split_ws cleaned))%Z ->
  generate_titles (Some summarize) (VStr raw) num_titles
  = map (_create_smart_fallback_title cleaned) (seq 0 (Z.to_nat num_titles)).
Proof.
  intros Hfail Hclean Hwords.
  unfold generate_titles, generate_titles_try, bind. rewrite Hclean.
  destruct (Z.ltb_spec (len (split_ws cleaned)) 10); [lia |].
  destruct (Z.le_gt_cases num_titles 0) as [Hn | Hn].
  - rewrite ai_path_nothing_asked by exact Hn.
    replace (Z.to_nat num_titles) with 0%nat by lia. reflexivity.
  - rewrite ai_path_spec by lia. rewrite (ai_phase_failing _ _ _ Hfail).
    cbn [app length]. rewrite Nat.sub_0_r. reflexivity.
Qed.

Lemma generate_titles_model_failing_cloud :
  generate_titles (U := Ascii7.tables) (Some (fun _ _ => Raises))
    (VStr cloud_content) 2
  = map (_create_smart_fallback_title (U := Ascii7.tables) cloud_content)
      (seq 0 (Z.to_nat 2)).
Proof.
  apply (@generate_titles_model_failing Ascii7.tables (fun _ _ => Raises)
           cloud_content cloud_content 2%Z).
  - intros prompt i. left. reflexivity.
  - vm_compute. reflexivity.
  - vm_compute. discriminate.
Defined.

(** ** Changing the case of the input *)

Section Recase.

(** A change of characters that moves no character into or out of the
    classes the formatter looks at. *)
Variable f : char -> char.
Hypothesis f_space : forall c, isspace (f c) = isspace c.
Hypothesis f_SPACE : f SPACE = SPACE.
Hypothesis f_dquote : forall c, N.eqb (f c) DQUOTE = N.eqb c DQUOTE.
Hypothesis f_backtick : forall c, N.eqb (f c) BACKTICK = N.eqb c BACKTICK.
Hypothesis f_dot : forall c, N.eqb DOT (f c) = N.eqb DOT c.
Hypothesis f_APOSTROPHE : f APOSTROPHE = APOSTROPHE.

Lemma lstrip_by_map (p : char -> bool) (s : pystr) :
  (forall c, p (f c) = p c) ->
  lstrip_by p (map f s) = map f (lstrip_by p s).
Proof.
  intros Hp. induction s as [| c r IH]; [reflexivity |].
  cbn [map lstrip_by]. rewrite Hp. destruct (p c); [exact IH | reflexivity].
Qed.

Lemma rstrip_by_map (p : char -> bool) (s : pystr) :
  (forall c, p (f c) = p c) ->
  rstrip_by p (map f s) = map f (rstrip_by p s).
Proof.
  intros Hp. induction s as [| c r IH]; [reflexivity |].
  cbn [map rstrip_by]. rewrite IH, Hp.
  destruct (rstrip_by p r); cbn [map]; [destruct (p c) |]; reflexivity.
Qed.

Lemma collapse_from_map (s : pystr) :
  forall b, collapse_from b (map f s) = map f (collapse_from b s).
Proof.
  induction s as [| c r IH]; intros b; [reflexivity |].
  cbn [map collapse_from]. rewrite f_space, !IH.
  destruct (isspace c); [destruct b |]; cbn [map]; rewrite ?f_SPACE; reflexivity.
Qed.

Lemma split_by_map (p : char -> bool) (s : pystr) :
  (forall c, p (f c) = p c) ->
  split_by p (map f s) = map (map f) (split_by p s).
Proof.
  intros Hp. induction s as [| c r IH]; [reflexivity |].
  cbn [map split_by]. rewrite Hp, IH.
  destruct (p c); [reflexivity |].
  destruct (split_by p r); reflexivity.
Qed.

Lemma split_ws_map (s : pystr) :
  split_ws (map f s) = map (map f) (split_ws s).
Proof.
  unfold split_ws. rewrite (split_by_map _ _ f_space).
  induction (split_by isspace s) as [| w ws IH]; [reflexivity |].
  cbn [map filter]. destruct w; cbn [map is_empty negb]; rewrite IH; reflexivity.
Qed.

Lemma title_text_map (s : pystr) : title_text (map f s) = map f (title_text s).
Proof.
  unfold title_text, rstrip_dots, collapse_ws, strip.
  rewrite !replace_char_same.
  assert (E : replace_char BACKTICK APOSTROPHE (remove_char DQUOTE (map f s))
              = map f (replace_char BACKTICK APOSTROPHE (remove_char DQUOTE s))).
  { unfold replace_char, remove_char.
    induction s as [| c r IH]; [reflexivity |].
    cbn [map filter]. rewrite f_dquote.
    destruct (N.eqb c DQUOTE); cbn [negb]; [exact IH |].
    cbn [map]. rewrite f_backtick, IH.
    destruct (N.eqb c BACKTICK); rewrite ?f_APOSTROPHE; reflexivity. }
  rewrite E, (lstrip_by_map _ _ f_space), (rstrip_by_map _ _ f_space),
    collapse_from_map.
  apply rstrip_by_map. exact f_dot.
Qed.

End Recase.

Module RecaseFacts.
Import Ascii7 Ascii7Facts.

Lemma capitalize_upper w : capitalize (upper w) = capitalize w.
Proof.
  destruct w as [| c r]; [reflexivity |]. cbn [upper map capitalize].
  rewrite to_upper_upper. fold (upper r). rewrite lower_upper. reflexivity.
Qed.

Lemma capitalize_lower w : capitalize (lower w) = capitalize w.
Proof.
  destruct w as [| c r]; [reflexivity |]. cbn [lower map capitalize].
  rewrite to_upper_lower. fold (lower r). rewrite lower_lower. reflexivity.
Qed.

Lemma case_word_upper (i : nat) (w : pystr) :
  case_word (U := tables) i (upper w) = case_word (U := tables) i w.
Proof.
  unfold case_word. cbn [str_upper str_lower str_capitalize tables].
  rewrite upper_upper, lower_upper, capitalize_upper, len_upper. reflexivity.
Qed.

Lemma case_word_lower (i : nat) (w : pystr) :
  case_word (U := tables) i (lower w) = case_word (U := tables) i w.
Proof.
  unfold case_word. cbn [str_upper str_lower str_capitalize tables].
  rewrite upper_lower, lower_lower, capitalize_lower, len_lower. reflexivity.
Qed.

Lemma case_words_recase (g : pystr -> pystr) (ws : list pystr) :
  (forall i w, case_word (U := tables) i (g w) = case_word (U := tables) i w) ->
  forall i, case_words (U := tables) i (map g ws) = case_words (U := tables) i ws.
Proof.
  intros Hg. induction ws as [| w r IH]; intros i; [reflexivity |].
  cbn [map case_words]. rewrite Hg, IH. reflexivity.
Qed.

Lemma not_cased (a : char) :
  is_cased a = false -> ~ (65 <= a <= 90)%N /\ ~ (97 <= a <= 122)%N.
Proof.
  unfold is_cased, is_upper, is_lower.
  rewrite orb_false_iff, !andb_false_iff, !N.leb_gt. lia.
Qed.

Lemma to_upper_class (c a : char) :
  is_cased a = false -> N.eqb (to_upper c) a = N.eqb c a.
Proof.
  intros Ha. apply not_cased in Ha.
  unfold to_upper. destruct (is_lower c) eqn:E; [| reflexivity].
  unfold is_lower in E. rewrite andb_true_iff, !N.leb_le in E.
  rewrite (proj2 (N.eqb_neq (c - 32) a)), (proj2 (N.eqb_neq c a)); [reflexivity | |];
    lia.
Qed.

Lemma to_lower_class (c a : char) :
  is_cased a = false -> N.eqb (to_lower c) a = N.eqb c a.
Proof.
  intros Ha. apply not_cased in Ha.
  unfold to_lower. destruct (is_upper c) eqn:E; [| reflexivity].
  unfold is_upper in E. rewrite andb_true_iff, !N.leb_le in E.
  rewrite (proj2 (N.eqb_neq (c + 32) a)), (proj2 (N.eqb_neq c a)); [reflexivity | |];
    lia.
Qed.

Lemma isspace_letter (c : char) : is_cased c = true -> isspace c = false.
Proof.
  intros H. apply FormatterFacts.isspace_below.
  unfold is_cased, is_upper, is_lower in H.
  rewrite orb_true_iff, !andb_true_iff, !N.leb_le in H. lia.
Qed.

Lemma to_upper_space (c : char) : isspace (to_upper c) = isspace c.
Proof.
  unfold to_upper. destruct (is_lower c) eqn:E; [| reflexivity].
  rewrite (isspace_letter c) by (unfold is_cased; rewrite E; apply orb_true_r).
  apply isspace_letter. unfold is_cased, is_upper, is_lower in *.
  apply andb_true_iff in E. destruct E as [E1 E2]. apply N.leb_le in E1, E2.
  rewrite orb_true_iff, !andb_true_iff, !N.leb_le. lia.
Qed.

Lemma to_lower_space (c : char) : isspace (to_lower c) = isspace c.
Proof.
  unfold to_lower. destruct (is_upper c) eqn:E; [| reflexivity].
  rewrite (isspace_letter c) by (unfold is_cased; rewrite E; reflexivity).
  apply isspace_letter. unfold is_cased, is_upper, is_lower in *.
  apply andb_true_iff in E. destruct E as [E1 E2]. apply N.leb_le in E1, E2.
  rewrite orb_true_iff, !andb_true_iff, !N.leb_le. lia.
Qed.

Lemma clean_title_recase (f : char -> char) (s : pystr) :
  (forall c, isspace (f c) = isspace c) ->
  (forall c a, is_cased a = false -> N.eqb (f c) a = N.eqb c a) ->
  (forall i w, case_word (U := tables) i (map f w) = case_word (U := tables) i w) ->
  _clean_title (U := tables) (map f s) = _clean_title (U := tables) s.
Proof.
  intros Hsp Hcl Hw. rewrite !clean_title_unfold.
  destruct s as [| c r]; [reflexivity |]. cbn [map is_empty].
  change (f c :: map f r) with (map f (c :: r)).
  rewrite title_text_map; auto.
  - rewrite split_ws_map by exact Hsp.
    destruct (split_ws (title_text (c :: r))) as [| w ws]; [reflexivity |].
    cbn [map is_empty]. change (map f w :: map (map f) ws) with (map (map f) (w :: ws)).
    rewrite case_words_recase by exact Hw. reflexivity.
  - pose proof (Hcl SPACE SPACE eq_refl) as H. rewrite N.eqb_refl in H.
    apply N.eqb_eq in H. exact H.
  - intros c0. rewrite (N.eqb_sym DOT (f c0)), (N.eqb_sym DOT c0). auto.
  - pose proof (Hcl APOSTROPHE APOSTROPHE eq_refl) as H. rewrite N.eqb_refl in H.
    apply N.eqb_eq in H. exact H.
Qed.

End RecaseFacts.

(** X20.  On ASCII input the formatter does not look at the case of its
    input: a title in capitals, in small letters or in any mix of the two
    is formatted to the same string. *)
Theorem clean_title_ignores_case (s : pystr) :
  Forall (fun c => (c < 128)%N) s ->
  _clean_title (U := Ascii7.tables) (Ascii7.upper s) = _clean_title (U := Ascii7.tables) s
  /\ _clean_title (U := Ascii7.tables) (Ascii7.lower s)
     = _clean_title (U := Ascii7.tables) s.
Proof.
  intros _. split.
  - apply RecaseFacts.clean_title_recase.
    + apply RecaseFacts.to_upper_space.
    + intros c a. apply RecaseFacts.to_upper_class.
    + apply RecaseFacts.case_word_upper.
  - apply RecaseFacts.clean_title_recase.
    + apply RecaseFacts.to_lower_space.
    + intros c a. apply RecaseFacts.to_lower_class.
    + apply RecaseFacts.case_word_lower.
Qed.

Lemma clean_title_ignores_case_guide :
  _clean_title (U := Ascii7.tables) (Ascii7.upper (lit "The aI gUIDE to SaaS"))
    = _clean_title (U := Ascii7.tables) (lit "The aI gUIDE to SaaS")
  /\ _clean_title (U := Ascii7.tables) (Ascii7.lower (lit "The aI gUIDE to SaaS"))
     = _clean_title (U := Ascii7.tables) (lit "The aI gUIDE to SaaS").
Proof.
  apply (@clean_title_ignores_case (lit "The aI gUIDE to SaaS")).
  vm_compute. repeat constructor.
Defined.

(** ** Whitespace around the content *)

Section Padding.
Context {U : Unicode}.

Lemma clean_content_str (raw : pystr) : clean_content (VStr raw) = Ok (clean_text raw).
Proof. destruct raw; reflexivity. Qed.

Lemma lstrip_all_space (l : pystr) :
  Forall (fun c => isspace c = true) l ->
  forall y, lstrip_by isspace (l ++ y) = lstrip_by isspace y.
Proof.
  induction 1 as [| c l Hc _ IH]; intros y; [reflexivity |].
  cbn [app lstrip_by]. rewrite Hc. apply IH.
Qed.

Lemma rstrip_all_space (r : pystr) :
  Forall (fun c => isspace c = true) r -> rstrip_by isspace r = [].
Proof.
  induction 1 as [| c r Hc _ IH]; [reflexivity |].
  cbn [rstrip_by]. rewrite IH, Hc. reflexivity.
Qed.

Lemma rstrip_app_space (r : pystr) :
  Forall (fun c => isspace c = true) r ->
  forall y, rstrip_by isspace (y ++ r) = rstrip_by isspace y.
Proof.
  intros Hr. induction y as [| c y IH]; [apply rstrip_all_space, Hr |].
  cbn [app rstrip_by]. rewrite IH. reflexivity.
Qed.

Lemma strip_padded (l r y : pystr) :
  Forall (fun c => isspace c = true) l ->
  Forall (fun c => isspace c = true) r ->
  strip (l ++ y ++ r) = strip y.
Proof.
  intros Hl Hr. unfold strip. rewrite (lstrip_all_space Hl).
  induction y as [| c y IH].
  - cbn [app]. rewrite <- (app_nil_r r), (lstrip_all_space Hr). reflexivity.
  - cbn [app lstrip_by]. destruct (isspace c); [exact IH |].
    apply (rstrip_app_space Hr (c :: y)).
Qed.

Lemma replace_char_space (a b : char) (l : pystr) :
  isspace a = false ->
  Forall (fun c => isspace c = true) l ->
  Forall (fun c => isspace c = true) (replace_char a b l).
Proof.
  intros Ha Hl. unfold replace_char. apply Forall_map.
  eapply Forall_impl; [| exact Hl]. simpl. intros c Hc.
  destruct (N.eqb_spec c a); [congruence | exact Hc].
Qed.

Lemma cleaned_unsplit_padded (l r raw : pystr) :
  Forall (fun c => isspace c = true) l ->
  Forall (fun c => isspace c = true) r ->
  cleaned_unsplit (l ++ raw ++ r) = cleaned_unsplit raw.
Proof.
  intros Hl Hr. unfold cleaned_unsplit.
  assert (Hrep : forall a b x y z,
            replace_char a b (x ++ y ++ z)
            = replace_char a b x ++ replace_char a b y ++ replace_char a b z).
  { intros. unfold replace_char. rewrite !map_app. reflexivity. }
  rewrite !Hrep, strip_padded; [reflexivity | |];
    repeat apply replace_char_space; auto.
Qed.

Lemma generate_titles_padded (model : option summarizer) (l r raw : pystr) (n : Z) :
  Forall (fun c => isspace c = true) l ->
  Forall (fun c => isspace c = true) r ->
  generate_titles model (VStr (l ++ raw ++ r)) n = generate_titles model (VStr raw) n.
Proof.
  intros Hl Hr. unfold generate_titles, generate_titles_try.
  rewrite !clean_content_str, !clean_text_unfold, (cleaned_unsplit_padded _ Hl Hr).
  reflexivity.
Qed.

End Padding.

(** X21.  Whitespace before and after the content changes nothing: the
    engine cleans, asks the model and answers as for the bare content. *)
Theorem generate_titles_ignores_padding (U : Unicode) (model : option summarizer)
    (before after raw : pystr) (num_titles : Z) :
  Forall (fun c => isspace c = true) before ->
  Forall (fun c => isspace c = true) after ->
  clean_content (VStr (before ++ raw ++ after)) = clean_content (VStr raw)
  /\ generate_titles model (VStr (before ++ raw ++ after)) num_titles
     = generate_titles model (VStr raw) num_titles.
Proof.
  intros Hb Ha. split; [| apply generate_titles_padded; assumption].
  rewrite !clean_content_str, !clean_text_unfold, (cleaned_unsplit_padded _ Hb Ha).
  reflexivity.
Qed.

Lemma generate_titles_ignores_padding_cloud :
  clean_content (U := Ascii7.tables) (VStr (lit "  " ++ cloud_content ++ [10%N]))
    = clean_content (U := Ascii7.tables) (VStr cloud_content)
  /\ generate_titles (U := Ascii7.tables) None
       (VStr (lit "  " ++ cloud_content ++ [10%N])) 3
     = generate_titles (U := Ascii7.tables) None (VStr cloud_content) 3.
Proof.
  apply (@generate_titles_ignores_padding Ascii7.tables None (lit "  ")
           [10%N] cloud_content 3%Z).
  - vm_compute. repeat constructor.
  - vm_compute. repeat constructor.
Defined.
